(** * The gmossp bidder adapter, in two generations

    A shallow embedding of the two adapter variants of the repository:

    - [PerRequest]: [modules/gmosspBidAdapter.js], one GET request per bid,
      banner and native responses;
    - [Aggregate]: the later variant (one POST request for all bids,
      banner rows only).

    The adapters are JavaScript; the values they receive are parsed JSON.
    [JS] models those values and the handful of language operations the
    adapters apply to them. [utils] models the helpers the adapters import
    from the framework. The two adapter modules follow the source
    function by function. *)

From Stdlib Require Import List String Ascii ZArith NArith Bool Lia DecimalString.
Import ListNotations.
Open Scope string_scope.
Open Scope list_scope.
Open Scope Z_scope.

(** ** Abrupt completion *)

(** The two exceptions that the code under study can raise. *)
Inductive error : Type :=
| TypeError
| URIError.

(** The completion of a computation that touches no shared state. *)
Inductive result (A : Type) : Type :=
| Ok (a : A)
| Throw (e : error).
Arguments Ok {A} a.
Arguments Throw {A} e.

Definition rbind {A B : Type} (c : result A) (k : A -> result B) : result B :=
  match c with
  | Ok a => k a
  | Throw e => Throw e
  end.

Declare Scope result_scope.
Delimit Scope result_scope with result.
Notation "x <- c ;; k" := (rbind c (fun x => k))
  (at level 61, c at next level, right associativity) : result_scope.

(** [arr.map(f)] for a callback that may throw: left to right, the first
    exception ends the traversal. *)
Fixpoint rmap {A B : Type} (f : A -> result B) (l : list A) : result (list B) :=
  match l with
  | [] => Ok []
  | x :: r =>
      match f x with
      | Ok y =>
          match rmap f r with
          | Ok ys => Ok (y :: ys)
          | Throw e => Throw e
          end
      | Throw e => Throw e
      end
  end.

(** A loop that updates a local accumulator, for a body that may throw. *)
Fixpoint rfold {A B : Type} (f : A -> B -> result A) (l : list B) (a : A) : result A :=
  match l with
  | [] => Ok a
  | x :: r =>
      match f a x with
      | Ok a' => rfold f r a'
      | Throw e => Throw e
      end
  end.

(** ** JavaScript values *)

Module JS.

(** A string is a sequence of UTF-16 code units; a lone surrogate is a
    string like any other until it is encoded. *)
Definition code_unit : Type := N.
Definition jsstring : Type := list code_unit.

(** A literal of the source text. *)
Definition lit (s : string) : jsstring := map N_of_ascii (list_ascii_of_string s).

(** The double quote, for the literals of the source that contain one. *)
Definition dquote : jsstring := [34%N].

(** The values that reach the adapter: what [JSON.parse] returns, plus
    [undefined]. Numbers are the integers (the adapter copies numbers,
    tests them and compares them, and never computes with them); the
    properties of an object are listed in enumeration order, each key once. *)
#[warnings="-register-all"]
Inductive value : Type :=
| VUndefined
| VNull
| VBool (b : bool)
| VNum (z : Z)
| VStr (s : jsstring)
| VArr (elems : list value)
| VObj (props : list (string * value)).

(** [ToBoolean]. *)
Definition truthy (v : value) : bool :=
  match v with
  | VUndefined | VNull => false
  | VBool b => b
  | VNum z => negb (z =? 0)
  | VStr s => match s with [] => false | _ => true end
  | VArr _ | VObj _ => true
  end.

(** [a || b] and [a && b] on values already evaluated (the right operand
    has no effect wherever the adapters use these). *)
Definition or_else (a b : value) : value := if truthy a then a else b.

(** [Number::toString] on an integer. *)
Definition string_of_Z (z : Z) : jsstring := lit (NilZero.string_of_int (Z.to_int z)).

(** [ToString]: an array joins its elements with commas, [null] and
    [undefined] elements giving the empty string; a plain object is
    [[object Object]]. *)
Fixpoint ToString (v : value) : jsstring :=
  match v with
  | VUndefined => lit "undefined"
  | VNull => lit "null"
  | VBool true => lit "true"
  | VBool false => lit "false"
  | VNum z => string_of_Z z
  | VStr s => s
  | VArr l =>
      (fix join (l : list value) : jsstring :=
         match l with
         | [] => []
         | x :: r =>
             let sx := match x with
                       | VUndefined | VNull => []
                       | _ => ToString x
                       end in
             match r with
             | [] => sx
             | _ :: _ => sx ++ lit "," ++ join r
             end
         end) l
  | VObj _ => lit "[object Object]"
  end.

(** [a + s] where [s] is a string: string concatenation after [ToString]. *)
Definition plus_string (a : value) (s : jsstring) : value := VStr (ToString a ++ s).

Fixpoint lookup (k : string) (props : list (string * value)) : option value :=
  match props with
  | [] => None
  | (k', v) :: r => if String.eqb k k' then Some v else lookup k r
  end.

(** [o.k] for a data property [k] of a value other than [undefined] and
    [null]: [undefined] when there is no such property. Arrays and strings
    have their [length]; methods are not data and are reached through
    [forEach] below. *)
Definition prop (o : value) (k : string) : value :=
  match o with
  | VObj props =>
      match lookup k props with
      | Some v => v
      | None => VUndefined
      end
  | VArr l => if String.eqb k "length" then VNum (Z.of_nat (List.length l)) else VUndefined
  | VStr s => if String.eqb k "length" then VNum (Z.of_nat (List.length s)) else VUndefined
  | _ => VUndefined
  end.

(** [o.k]: reading a property of [undefined] or [null] is a [TypeError]. *)
Definition get (o : value) (k : string) : result value :=
  match o with
  | VUndefined | VNull => Throw TypeError
  | _ => Ok (prop o k)
  end.

Fixpoint update (k : string) (v : value) (props : list (string * value)) : list (string * value) :=
  match props with
  | [] => [(k, v)]
  | (k', v') :: r => if String.eqb k k' then (k, v) :: r else (k', v') :: update k v r
  end.

(** [o.k = v] in module (strict) code: an existing property keeps its
    place, a new one goes last; a [TypeError] on a primitive. A JSON array
    has no named property and the value model gives it none: the adapters
    assign to a response body only while looping over one of its
    properties, so the body is an object there. *)
Definition set (o : value) (k : string) (v : value) : result value :=
  match o with
  | VObj props => Ok (VObj (update k v props))
  | _ => Throw TypeError
  end.

(** [arr.forEach(f)]: the elements of an array; anything else has no
    [forEach] to call, or is [undefined] or [null]. *)
Definition forEach (o : value) : result (list value) :=
  match o with
  | VArr l => Ok l
  | _ => Throw TypeError
  end.

(** [ToNumber] where it yields an integer ([None] stands for [NaN]).
    A string is read as an optional sign and decimal digits; the other
    numeric forms of a string (blanks around it, a fraction, an exponent,
    another radix) have no integer to stand for them here and read as
    [NaN]. *)
Definition digit_of (c : code_unit) : option Z :=
  if (48 <=? c)%N && (c <=? 57)%N then Some (Z.of_N c - 48) else None.

Fixpoint digits_value (s : jsstring) (acc : Z) : option Z :=
  match s with
  | [] => Some acc
  | c :: r =>
      match digit_of c with
      | Some d => digits_value r (10 * acc + d)
      | None => None
      end
  end.

Definition StringToNumber (s : jsstring) : option Z :=
  match s with
  | [] => Some 0
  | 45%N :: (_ :: _) as r => option_map Z.opp (digits_value r 0)
  | 43%N :: (_ :: _) as r => digits_value r 0
  | _ => digits_value s 0
  end.

Definition ToNumber (v : value) : option Z :=
  match v with
  | VUndefined => None
  | VNull => Some 0
  | VBool b => Some (if b then 1 else 0)
  | VNum z => Some z
  | VStr s => StringToNumber s
  | VArr _ => StringToNumber (ToString v)
  | VObj _ => None
  end.

(** [v > n] for a number literal [n]. *)
Definition gt (v : value) (n : Z) : bool :=
  match ToNumber v with
  | Some z => n <? z
  | None => false
  end.

(** [v === n] for a number literal [n]. *)
Definition strict_eq_num (v : value) (n : Z) : bool :=
  match v with
  | VNum z => z =? n
  | _ => false
  end.

(** *** [encodeURI] and [encodeURIComponent] *)

Definition in_range (lo hi c : N) : bool := ((lo <=? c) && (c <=? hi))%N.

Definition is_alnum (c : code_unit) : bool :=
  in_range 48 57 c || in_range 65 90 c || in_range 97 122 c.

Definition mem_lit (c : code_unit) (s : string) : bool :=
  existsb (N.eqb c) (lit s).

(** The characters [encodeURIComponent] leaves alone. *)
Definition uri_unescaped (c : code_unit) : bool :=
  is_alnum c || mem_lit c "-_.!~*'()".

(** The characters [encodeURI] leaves alone. *)
Definition uri_reserved_or_unescaped (c : code_unit) : bool :=
  uri_unescaped c || mem_lit c ";/?:@&=+$,#".

Definition is_high_surrogate (c : code_unit) : bool := in_range 55296 56319 c.
Definition is_low_surrogate (c : code_unit) : bool := in_range 56320 57343 c.

Definition hex_digit (upper : bool) (n : N) : code_unit :=
  (if n <? 10 then 48 + n else (if upper then 55 else 87) + n)%N.

(** One octet as [%XX]. *)
Definition percent (b : N) : jsstring :=
  [37%N; hex_digit true (b / 16)%N; hex_digit true (b mod 16)%N].

(** The UTF-8 octets of a code point. *)
Definition utf8 (cp : N) : list N :=
  (if cp <? 128 then [cp]
   else if cp <? 2048 then [192 + cp / 64; 128 + cp mod 64]
   else if cp <? 65536 then [224 + cp / 4096; 128 + (cp / 64) mod 64; 128 + cp mod 64]
   else [240 + cp / 262144; 128 + (cp / 4096) mod 64; 128 + (cp / 64) mod 64; 128 + cp mod 64])%N.

Definition escape (cp : N) : jsstring := List.concat (map percent (utf8 cp)).

(** The abstract operation [Encode]: a code unit of the unescaped set is
    copied; any other code point is written as the escapes of its UTF-8
    octets; a surrogate without its partner is a [URIError]. *)
Fixpoint Encode (unescaped : code_unit -> bool) (s : jsstring) : result jsstring :=
  match s with
  | [] => Ok []
  | c :: rest =>
      if unescaped c then
        match Encode unescaped rest with
        | Ok r => Ok (c :: r)
        | Throw e => Throw e
        end
      else if is_low_surrogate c then Throw URIError
      else if is_high_surrogate c then
        match rest with
        | d :: rest' =>
            if is_low_surrogate d then
              match Encode unescaped rest' with
              | Ok r => Ok (escape ((c - 55296) * 1024 + (d - 56320) + 65536)%N ++ r)
              | Throw e => Throw e
              end
            else Throw URIError
        | [] => Throw URIError
        end
      else
        match Encode unescaped rest with
        | Ok r => Ok (escape c ++ r)
        | Throw e => Throw e
        end
  end.

Definition encodeURI (v : value) : result jsstring :=
  Encode uri_reserved_or_unescaped (ToString v).

Definition encodeURIComponent (v : value) : result jsstring :=
  Encode uri_unescaped (ToString v).

(** *** [JSON.stringify] *)

Definition hex4 (c : N) : jsstring :=
  [hex_digit false (c / 4096)%N; hex_digit false ((c / 256) mod 16)%N;
   hex_digit false ((c / 16) mod 16)%N; hex_digit false (c mod 16)%N].

Definition backslash : jsstring := [92%N].

(** The body of [QuoteJSONString]: the two-character escapes, [\uXXXX] for
    the other control characters and for a surrogate without its partner. *)
Fixpoint json_escape (s : jsstring) : jsstring :=
  match s with
  | [] => []
  | c :: rest =>
      if (c =? 34)%N then backslash ++ dquote ++ json_escape rest
      else if (c =? 92)%N then backslash ++ backslash ++ json_escape rest
      else if (c =? 8)%N then backslash ++ lit "b" ++ json_escape rest
      else if (c =? 9)%N then backslash ++ lit "t" ++ json_escape rest
      else if (c =? 10)%N then backslash ++ lit "n" ++ json_escape rest
      else if (c =? 12)%N then backslash ++ lit "f" ++ json_escape rest
      else if (c =? 13)%N then backslash ++ lit "r" ++ json_escape rest
      else if (c <? 32)%N || is_low_surrogate c then
        backslash ++ lit "u" ++ hex4 c ++ json_escape rest
      else if is_high_surrogate c then
        match rest with
        | d :: rest' =>
            if is_low_surrogate d then c :: d :: json_escape rest'
            else backslash ++ lit "u" ++ hex4 c ++ json_escape rest
        | [] => backslash ++ lit "u" ++ hex4 c
        end
      else c :: json_escape rest
  end.

Definition QuoteJSONString (s : jsstring) : jsstring := dquote ++ json_escape s ++ dquote.

Fixpoint join_commas (l : list jsstring) : jsstring :=
  match l with
  | [] => []
  | [x] => x
  | x :: r => x ++ lit "," ++ join_commas r
  end.

(** [SerializeJSONProperty]: [None] is [undefined]. A property whose value
    is [undefined] is left out of an object; in an array it is [null]. *)
Fixpoint SerializeJSONProperty (v : value) : option jsstring :=
  match v with
  | VUndefined => None
  | VNull => Some (lit "null")
  | VBool true => Some (lit "true")
  | VBool false => Some (lit "false")
  | VNum z => Some (string_of_Z z)
  | VStr s => Some (QuoteJSONString s)
  | VArr l =>
      Some (lit "[" ++
            join_commas
              ((fix elements (l : list value) : list jsstring :=
                  match l with
                  | [] => []
                  | x :: r =>
                      match SerializeJSONProperty x with
                      | Some s => s
                      | None => lit "null"
                      end :: elements r
                  end) l) ++
            lit "]")
  | VObj ps =>
      Some (lit "{" ++
            join_commas
              ((fix members (ps : list (string * value)) : list jsstring :=
                  match ps with
                  | [] => []
                  | (k, x) :: r =>
                      match SerializeJSONProperty x with
                      | Some s => (QuoteJSONString (lit k) ++ lit ":" ++ s) :: members r
                      | None => members r
                      end
                  end) ps) ++
            lit "}")
  end.

(** [JSON.stringify(v)]: a string, or [undefined]. *)
Definition JSON_stringify (v : value) : value :=
  match SerializeJSONProperty v with
  | Some s => VStr s
  | None => VUndefined
  end.

End JS.

Import JS.

(** ** Computations on shared state *)

(** A computation over a state [S] that may throw. The state survives an
    exception: what was assigned before a [throw] stays assigned. *)
Definition M (S A : Type) : Type := S -> result A * S.

Definition ret {S A : Type} (a : A) : M S A := fun s => (Ok a, s).

Definition bind {S A B : Type} (c : M S A) (k : A -> M S B) : M S B :=
  fun s =>
    match c s with
    | (Ok a, s') => k a s'
    | (Throw e, s') => (Throw e, s')
    end.

(** A computation that leaves the state alone. *)
Definition lift {S A : Type} (r : result A) : M S A := fun s => (r, s).

(** [try { body } catch (error) { handler }]. *)
Definition try_catch {S : Type} (body : M S unit) (handler : error -> M S unit) : M S unit :=
  fun s =>
    match body s with
    | (Ok u, s') => (Ok u, s')
    | (Throw e, s') => handler e s'
    end.

Declare Scope M_scope.
Delimit Scope M_scope with M.
Notation "x <- c ;; k" := (bind c (fun x => k))
  (at level 61, c at next level, right associativity) : M_scope.
Notation "c ;; k" := (bind c (fun _ => k))
  (at level 61, right associativity) : M_scope.

(** A callback run on each element in turn, for its effect. *)
Fixpoint for_each {S : Type} (f : value -> M S unit) (l : list value) : M S unit :=
  match l with
  | [] => ret tt
  | x :: r => (f x ;; for_each f r)%M
  end.

(** A callback run on each element in turn, each run pushing one element
    onto a local array. *)
Fixpoint collect {S B : Type} (f : value -> M S B) (l : list value) : M S (list B) :=
  match l with
  | [] => ret []
  | x :: r => (y <- f x ;; ys <- collect f r ;; ret (y :: ys))%M
  end.

(** A local variable [let x = init] that the closures of [body] assign to:
    the result is its final value. *)
Definition with_var {S L : Type} (init : L) (body : M (L * S) unit) : M S L :=
  fun s =>
    match body (init, s) with
    | (Ok _, (l, s')) => (Ok l, s')
    | (Throw e, (_, s')) => (Throw e, s')
    end.

Definition var_read {S L : Type} : M (L * S) L := fun s => (Ok (fst s), s).

Definition var_write {S L : Type} (l : L) : M (L * S) unit := fun s => (Ok tt, (l, snd s)).

(** A computation on the enclosing state, run where a local variable is in
    scope. *)
Definition outer {S L A : Type} (c : M S A) : M (L * S) A :=
  fun s => let (r, s') := c (snd s) in (r, (fst s, s')).

(** What an [interpretResponse] call can reach besides its own locals: the
    response object, which the orchestrator passes by reference and keeps,
    and the messages handed to the logging sink. *)
Record world : Type := {
  response : value;
  console : list (string * error)
}.

(** What [buildRequests] reads from the page and the configuration. *)
Record platform : Type := {
  (** [config.getConfig('currency.adServerCurrency')] *)
  adServerCurrency : value;
  (** the platform's do-not-track reading *)
  doNotTrack : bool;
  (** [document.getElementsByTagName('meta')]: for each element, its
      [property] attribute ([None] when it has none) and its [content] *)
  metas : list (option jsstring * jsstring);
  (** [window.document.referrer] *)
  documentReferrer : jsstring
}.

(** ** The framework's helpers *)

Module utils.

(** Modelled from the spec: [isEmpty] of [src/utils.js], which is not among
    the sources. An absent or empty body: a falsy value, an array or a string
    without elements, an object (or a primitive) without own keys. *)
Definition isEmpty (object : value) : bool :=
  if negb (truthy object) then true
  else
    match object with
    | VArr l => match l with [] => true | _ => false end
    | VStr s => match s with [] => true | _ => false end
    | VObj ps => match ps with [] => true | _ => false end
    | _ => true
    end.

(** Modelled from the spec: [isStr] of [src/utils.js]. *)
Definition isStr (v : value) : bool :=
  match v with
  | VStr _ => true
  | _ => false
  end.

(** Modelled from the spec: [createTrackPixelHtml] of [src/utils.js], the
    tracking-pixel [<img>] snippet that references a tracker URL: nothing
    for a falsy URL, else a hidden [<div>] around an [<img>] whose [src] is
    the URL passed through [encodeURI]. *)
Definition createTrackPixelHtml (url : value) : result jsstring :=
  if negb (truthy url) then Ok []
  else
    (escapedUrl <- encodeURI url ;;
     Ok (lit "<div style=" ++ dquote ++
         lit "position:absolute;left:0px;top:0px;visibility:hidden;" ++ dquote ++ lit ">" ++
         lit "<img src=" ++ dquote ++ escapedUrl ++ dquote ++ lit "></div>"))%result.

(** Modelled from the spec: [tryAppendQueryString] of [src/utils.js]: the
    field [key=value&] is appended when the value is present (truthy), and
    the query string is returned as it was otherwise. *)
Definition tryAppendQueryString (existingUrl : jsstring) (key : string) (value : value) : result jsstring :=
  if truthy value then
    (encoded <- encodeURIComponent value ;;
     Ok (existingUrl ++ lit key ++ lit "=" ++ encoded ++ lit "&"))%result
  else Ok existingUrl.

(** Modelled from the spec: [getBidIdParameter] of [src/utils.js]: the
    parameter when the params object has a truthy one, else the empty
    string. *)
Definition getBidIdParameter (key : string) (paramsObj : value) : value :=
  if truthy paramsObj && truthy (prop paramsObj key) then prop paramsObj key else VStr [].

(** Modelled from the spec: [_each] of [src/utils.js]: the elements the
    callback is run on. An array gives its elements; any other value gives
    the values of its own enumerable properties (the units of a string,
    nothing for [undefined], [null], a number or a boolean). *)
Definition _each (object : value) : list value :=
  match object with
  | VArr l => l
  | VObj ps => map snd ps
  | VStr s => map (fun c => VStr [c]) s
  | _ => []
  end.

(** Modelled from the spec: [deepAccess] of [src/utils.js], for a dotted
    path given as its components: each step reads a property of a truthy
    value and gives [undefined] on a falsy one. *)
Fixpoint deepAccess (obj : value) (path : list string) : value :=
  match path with
  | [] => obj
  | k :: r => deepAccess (if truthy obj then prop obj k else VUndefined) r
  end.

(** Modelled from the spec: [setOnAny] of [src/utils.js], the set-on-any
    lookup: the first truthy value of the path across the bids, in order,
    [undefined] when no bid has one. *)
Fixpoint setOnAny (collection : list value) (path : list string) : value :=
  match collection with
  | [] => VUndefined
  | x :: r =>
      let result := deepAccess x path in
      if truthy result then result else setOnAny r path
  end.

(** Modelled from the spec: [getDNT] of [src/utils.js], the platform's
    do-not-track reading, a boolean. *)
Definition getDNT (env : platform) : bool := doNotTrack env.

(** Modelled from the spec: [logError] of [src/utils.js], the logging sink
    for non-fatal errors. *)
Definition logError (msg : string) (e : error) : M world unit :=
  fun w => (Ok tt, {| response := response w; console := console w ++ [(msg, e)] |}).

(** Modelled from the spec: [getCurrencyFromBidderRequest] of
    [libraries/ortb2Utils/currency.js]: the per-auction currency override
    of the bidder request when it has one, else the globally configured
    ad-server currency. *)
Definition getCurrencyFromBidderRequest (env : platform) (bidderRequest : value) : value :=
  or_else (deepAccess bidderRequest ["ortb2"; "ext"; "prebid"; "adServerCurrency"])
          (adServerCurrency env).

(** Modelled from the spec: the media type constants of [src/mediaTypes.js]. *)
Definition BANNER : value := VStr (lit "banner").
Definition NATIVE : value := VStr (lit "native").

End utils.

(** ** The per-request adapter ([modules/gmosspBidAdapter.js]) *)

Module PerRequest.
Import utils.

Definition ENDPOINT : jsstring :=
  lit "https://mabuchi-ad.devel.sp.gmossp-sp.jp/hb/prebid/query.ad".

(** [return !!(bid.params.sid)] *)
Definition isBidRequestValid (bid : value) : result bool :=
  (params <- get bid "params" ;;
   sid <- get params "sid" ;;
   Ok (truthy sid))%result.

Definition getCurrencyType (env : platform) : value :=
  if truthy (adServerCurrency env) then adServerCurrency env
  else VStr (lit "JPY").

(** [eids] is a local array of the caller; the function returns it as it
    is after the call. *)
Definition setUserId (eids : list value) (source : string) (value : value) : list JS.value :=
  if isStr value then
    eids ++ [VObj [("source", VStr (lit source)); ("uids", VArr [VObj [("id", value)]])]]
  else eids.

(** The body of the loop of [buildRequests], for one bid request. *)
Definition buildRequest (bidderRequest url cur dnt request : value) : result value :=
  (let queryString := [] in
   tid <- get request "transactionId" ;;
   bid <- get request "bidId" ;;
   let ver := VStr (lit "$prebid.version$") in
   params <- get request "params" ;;
   let sid := getBidIdParameter "sid" params in
   let native := getBidIdParameter "native" params in
   let eids := [] in
   let eids :=
     if truthy bidderRequest && truthy (prop bidderRequest "userId") then
       setUserId eids "liveramp.com" (deepAccess bidderRequest ["userId"; "idl_env"])
     else eids in
   queryString <- tryAppendQueryString queryString "tid" tid ;;
   queryString <- tryAppendQueryString queryString "bid" bid ;;
   queryString <- tryAppendQueryString queryString "ver" ver ;;
   queryString <- tryAppendQueryString queryString "sid" sid ;;
   queryString <- tryAppendQueryString queryString "url" url ;;
   queryString <- tryAppendQueryString queryString "cur" cur ;;
   queryString <- tryAppendQueryString queryString "dnt" dnt ;;
   queryString <- tryAppendQueryString queryString "native" native ;;
   queryString <- tryAppendQueryString queryString "usr" (VArr eids) ;;
   Ok (VObj [("method", VStr (lit "GET"));
             ("url", VStr ENDPOINT);
             ("data", VStr queryString)]))%result.

(** [validBidRequests] is the array of bids the orchestrator admitted. *)
Definition buildRequests (env : platform) (validBidRequests : list value)
    (bidderRequest : value) : result (list value) :=
  (refererInfo <- get bidderRequest "refererInfo" ;;
   url <- get refererInfo "referer" ;;
   let cur := getCurrencyType env in
   let dnt := VStr (lit (if getDNT env then "1" else "0")) in
   rmap (buildRequest bidderRequest url cur dnt) validBidRequests)%result.

(** [res], the parameter of [getBannerAd], is the object
    [bidderResponse.body] itself: reading [res.k] reads the shared
    response, and assigning [res.k] changes it. *)
Definition res_get (k : string) : M world value :=
  fun w => ((res <- get (response w) "body" ;; get res k)%result, w).

Definition res_set (k : string) (v : value) : M world unit :=
  fun w =>
    match (res <- get (response w) "body" ;;
           res' <- set res k v ;;
           set (response w) "body" res')%result with
    | Ok r => (Ok tt, {| response := r; console := console w |})
    | Throw e => (Throw e, w)
    end.

Definition getBannerAd : M world value :=
  (try_catch
     (imps <- res_get "imps" ;;
      l <- lift (forEach imps) ;;
      for_each (fun impTracker =>
        tracker <- lift (createTrackPixelHtml impTracker) ;;
        ad <- res_get "ad" ;;
        res_set "ad" (plus_string ad tracker)) l)
     (fun error => logError "Error appending tracking pixel" error) ;;
   res_get "ad")%M.

(** The [switch] on [asset.id] in [getNativeAd]; [native] is the local
    object under construction, given by its properties. *)
Definition nativeAsset (native : list (string * value)) (asset : value)
    : result (list (string * value)) :=
  (id <- get asset "id" ;;
   if strict_eq_num id 0 then
     title <- get asset "title" ;;
     text <- get title "text" ;;
     Ok (update "title" text native)
   else if strict_eq_num id 1 then
     data <- get asset "data" ;;
     v <- get data "value" ;;
     Ok (update "body" v native)
   else if strict_eq_num id 2 then
     data <- get asset "data" ;;
     v <- get data "value" ;;
     Ok (update "sponsoredBy" v native)
   else if strict_eq_num id 3 then
     img <- get asset "img" ;;
     url <- get img "url" ;;
     w <- get img "w" ;;
     h <- get img "h" ;;
     Ok (update "icon" (VObj [("url", url); ("width", w); ("height", h)]) native)
   else if strict_eq_num id 4 then
     img <- get asset "img" ;;
     url <- get img "url" ;;
     w <- get img "w" ;;
     h <- get img "h" ;;
     Ok (update "image" (VObj [("url", url); ("width", w); ("height", h)]) native)
   else Ok native)%result.

Definition getNativeAd (resNative : value) : result value :=
  (assets <- get resNative "assets" ;;
   len <- get assets "length" ;;
   if negb (truthy len) then Ok (VObj [])
   else
     l <- forEach assets ;;
     native <- rfold nativeAsset l [] ;;
     link <- get resNative "link" ;;
     clickUrl <- get link "url" ;;
     imptrackers <- get resNative "imptrackers" ;;
     privacy <- get resNative "privacy" ;;
     privacyIcon <- get resNative "privacyIcon" ;;
     let native := update "clickUrl" clickUrl native in
     let native := update "impressionTrackers" (or_else imptrackers (VArr [])) native in
     let native := update "privacyLink" (or_else privacy (VStr [])) native in
     let native := update "privacyIcon" (or_else privacyIcon (VStr [])) native in
     Ok (VObj native))%result.

(** [res.native && res.native.length > 0] *)
Definition isNative (res : value) : result bool :=
  (native <- get res "native" ;;
   if truthy native then
     len <- get native "length" ;;
     Ok (gt len 0)
   else Ok false)%result.

(** [bidderResponse] is the reference to [response] in the world. *)
Definition interpretResponse : M world (list value) :=
  fun w0 =>
  (res <- lift (get (response w0) "body") ;;
   if isEmpty res then ret []
   else
     requestId <- lift (get res "bid") ;;
     cpm <- lift (get res "price") ;;
     currency <- lift (get res "cur") ;;
     width <- lift (get res "w") ;;
     height <- lift (get res "h") ;;
     creativeId <- lift (get res "creativeId") ;;
     ttl <- lift (get res "ttl") ;;
     let bid := [("requestId", requestId);
                 ("cpm", cpm);
                 ("currency", currency);
                 ("width", width);
                 ("height", height);
                 ("creativeId", creativeId);
                 ("netRevenue", VBool true);
                 ("ttl", or_else ttl (VNum 300))] in
     native <- lift (isNative res) ;;
     if native then
       bid <- lift (set (VObj bid) "mediaType" NATIVE) ;;
       resNative <- lift (get res "native") ;;
       nativeAd <- lift (getNativeAd resNative) ;;
       bid <- lift (set bid "native" nativeAd) ;;
       ret [bid]
     else
       bid <- lift (set (VObj bid) "mediaType" BANNER) ;;
       ad <- getBannerAd ;;
       bid <- lift (set bid "ad" ad) ;;
       ret [bid])%M w0.

(** One response of [getUserSyncs]: the entries it pushes. *)
Definition userSyncsOf (syncOptions res : value) : result (list value) :=
  (pixelEnabled <- get syncOptions "pixelEnabled" ;;
   if truthy pixelEnabled then
     body <- get res "body" ;;
     if truthy body then
       syncs <- get body "syncs" ;;
       len <- get syncs "length" ;;
       if truthy len then
         l <- forEach syncs ;;
         Ok (map (fun sync => VObj [("type", VStr (lit "image")); ("url", sync)]) l)
       else Ok []
     else Ok []
   else Ok [])%result.

(** [serverResponses] is the array of responses the orchestrator collected. *)
Definition getUserSyncs (syncOptions : value) (serverResponses : list value)
    : result (list value) :=
  match serverResponses with
  | [] => Ok []
  | _ =>
      (pushed <- rmap (userSyncsOf syncOptions) serverResponses ;;
       Ok (List.concat pushed))%result
  end.

End PerRequest.

(** ** The aggregate adapter (the later variant) *)

Module Aggregate.
Import utils.

Definition ENDPOINT : jsstring := lit "https://sp.gmossp-sp.jp/hb/prebid/query.ad".

(** [return !!(bid.params.sid)] *)
Definition isBidRequestValid (bid : value) : result bool :=
  (params <- get bid "params" ;;
   sid <- get params "sid" ;;
   Ok (truthy sid))%result.

Definition getCurrencyType (env : platform) (bidderRequest : value) : value :=
  or_else (getCurrencyFromBidderRequest env bidderRequest) (VStr (lit "JPY")).

(** [getWindowTop] is the imported function, and the source does not call
    it: its [document] is [undefined], reading [getElementsByTagName] from
    that throws, and the handler returns the [meta] elements of the
    immediate document. *)
Definition getMetaElements (env : platform) : list (option jsstring * jsstring) :=
  match get VUndefined "getElementsByTagName" with
  | Ok _ => metas env
  | Throw _ => metas env
  end.

Fixpoint jsstring_eqb (a b : jsstring) : bool :=
  match a, b with
  | [], [] => true
  | x :: a', y :: b' => (x =? y)%N && jsstring_eqb a' b'
  | _, _ => false
  end.

(** The loop of [getUrlInfo] over the meta elements: it runs while the
    canonical link is falsy. *)
Fixpoint scanMetaElements (metaElements : list (option jsstring * jsstring))
    (canonicalLink : value) : value :=
  match metaElements with
  | [] => canonicalLink
  | (property, content) :: r =>
      if truthy canonicalLink then canonicalLink
      else
        scanMetaElements r
          (match property with
           | Some p => if jsstring_eqb p (lit "og:url") then VStr content else canonicalLink
           | None => canonicalLink
           end)
  end.

Definition getUrlInfo (env : platform) (refererInfo : value) : result value :=
  (canonicalLink <- get refererInfo "canonicalUrl" ;;
   let canonicalLink :=
     if negb (truthy canonicalLink) then scanMetaElements (getMetaElements env) canonicalLink
     else canonicalLink in
   url <- get refererInfo "topmostLocation" ;;
   ref <- get refererInfo "ref" ;;
   Ok (VObj [("canonical_link", canonicalLink);
             ("url", url);
             ("ref", or_else ref (VStr (documentReferrer env)))]))%result.

(** The entry [buildRequests] pushes for one bid request. *)
Definition requestEntry (request : value) : result value :=
  (bid <- get request "bidId" ;;
   params <- get request "params" ;;
   Ok (VObj [("bid", bid); ("sid", getBidIdParameter "sid" params)]))%result.

(** The object [buildRequests] hands to [JSON.stringify]. *)
Definition requestPayload (env : platform) (validBidRequests : list value)
    (bidderRequest : value) : result value :=
  (requests <- rmap requestEntry validBidRequests ;;
   refererInfo <- get bidderRequest "refererInfo" ;;
   url_info <- getUrlInfo env refererInfo ;;
   Ok (VObj [("ver", VStr (lit "$prebid.version$"));
             ("eids", VObj [("im_uid", setOnAny validBidRequests ["userId"; "imuid"]);
                            ("shared_id", setOnAny validBidRequests ["userId"; "pubcid"])]);
             ("url_info", url_info);
             ("cur", getCurrencyType env bidderRequest);
             ("dnt", VNum (if getDNT env then 1 else 0));
             ("device_sua", setOnAny validBidRequests ["ortb2"; "device"; "sua"]);
             ("user_data", setOnAny validBidRequests ["ortb2"; "user"; "data"]);
             ("requests", VArr requests)]))%result.

(** [validBidRequests] is the array of bids the orchestrator admitted. *)
Definition buildRequests (env : platform) (validBidRequests : list value)
    (bidderRequest : value) : result (list value) :=
  (payload <- requestPayload env validBidRequests bidderRequest ;;
   Ok [VObj [("method", VStr (lit "POST"));
             ("url", VStr ENDPOINT);
             ("data", JSON_stringify payload)]])%result.

(** The callback of [interpretResponse] for one row of [res.bids]: the bid
    it pushes. [ad] is its local variable. *)
Definition bidOfRow (res row : value) : M world value :=
  (ad0 <- lift (get row "ad") ;;
   ad <- with_var ad0
           (try_catch
              (imps <- lift (get row "imps") ;;
               for_each (fun impTracker =>
                 ad <- var_read ;;
                 tracker <- lift (createTrackPixelHtml impTracker) ;;
                 var_write (plus_string ad tracker)) (_each imps))
              (fun error => outer (logError "Error appending tracking pixel" error))) ;;
   requestId <- lift (get row "bid") ;;
   cpm <- lift (get row "price") ;;
   currency <- lift (get res "cur") ;;
   width <- lift (get row "w") ;;
   height <- lift (get row "h") ;;
   creativeId <- lift (get row "creativeId") ;;
   ttl <- lift (get res "ttl") ;;
   adomains <- lift (get row "adomains") ;;
   ret (VObj [("requestId", requestId);
              ("cpm", cpm);
              ("currency", currency);
              ("width", width);
              ("height", height);
              ("ad", ad);
              ("creativeId", creativeId);
              ("netRevenue", VBool true);
              ("ttl", or_else ttl (VNum 300));
              ("adomains", adomains)]))%M.

(** [serverResponses] is the reference to [response] in the world. *)
Definition interpretResponse : M world (list value) :=
  fun w0 =>
  (res <- lift (get (response w0) "body") ;;
   if isEmpty res then ret []
   else
     bids <- lift (get res "bids") ;;
     collect (bidOfRow res) (_each bids))%M w0.

(** One response of [getUserSyncs]: the entries it pushes. *)
Definition userSyncsOf (syncOptions res : value) : result (list value) :=
  (pixelEnabled <- get syncOptions "pixelEnabled" ;;
   if truthy pixelEnabled then
     body <- get res "body" ;;
     if truthy body then
       syncs <- get body "syncs" ;;
       len <- get syncs "length" ;;
       if truthy len then
         Ok (map (fun sync => VObj [("type", VStr (lit "image")); ("url", sync)]) (_each syncs))
       else Ok []
     else Ok []
   else Ok [])%result.

(** [serverResponses] is the array of responses the orchestrator collected. *)
Definition getUserSyncs (syncOptions : value) (serverResponses : list value)
    : result (list value) :=
  match serverResponses with
  | [] => Ok []
  | _ =>
      (pushed <- rmap (userSyncsOf syncOptions) serverResponses ;;
       Ok (List.concat pushed))%result
  end.

End Aggregate.

(** ** Properties *)

Import utils.

Arguments lit : simpl never.

(** *** Vocabulary *)

(** The tracking-pixel snippet around an escaped URL. *)
Definition pixel (escapedUrl : jsstring) : jsstring :=
  lit "<div style=" ++ dquote ++
  lit "position:absolute;left:0px;top:0px;visibility:hidden;" ++ dquote ++ lit ">" ++
  lit "<img src=" ++ dquote ++ escapedUrl ++ dquote ++ lit "></div>".

(** The loop that appends one snippet per tracker, read as a function of
    the markup so far: the markup when the loop ends, and the exception that
    ended it, if one did. *)
Fixpoint appendTrackers (ad : value) (imps : list value) : value * option error :=
  match imps with
  | [] => (ad, None)
  | impTracker :: r =>
      match createTrackPixelHtml impTracker with
      | Ok tracker => appendTrackers (plus_string ad tracker) r
      | Throw e => (ad, Some e)
      end
  end.

(** What the handler of the loop hands to the logging sink. *)
Definition trackerLog (err : option error) : list (string * error) :=
  match err with
  | Some e => [("Error appending tracking pixel", e)]
  | None => []
  end.

Definition logged (w : world) (entries : list (string * error)) : world :=
  {| response := response w; console := console w ++ entries |}.

(** [undefined] and [null], the values without properties. *)
Definition nullish (v : value) : bool :=
  match v with
  | VUndefined | VNull => true
  | _ => false
  end.

(** The bid the aggregate adapter builds for a row, given its markup. *)
Definition aggregateBid (res row ad : value) : value :=
  VObj [("requestId", prop row "bid");
        ("cpm", prop row "price");
        ("currency", prop res "cur");
        ("width", prop row "w");
        ("height", prop row "h");
        ("ad", ad);
        ("creativeId", prop row "creativeId");
        ("netRevenue", VBool true);
        ("ttl", or_else (prop res "ttl") (VNum 300));
        ("adomains", prop row "adomains")].

(** The markup the adapters assemble for a row. *)
Definition markupOf (row : value) : value :=
  fst (appendTrackers (prop row "ad") (_each (prop row "imps"))).

Definition markupLog (row : value) : list (string * error) :=
  trackerLog (snd (appendTrackers (prop row "ad") (_each (prop row "imps")))).

(** The banner bid the per-request adapter builds for a response body,
    given its markup. *)
Definition perRequestBannerBid (res ad : value) : value :=
  VObj [("requestId", prop res "bid");
        ("cpm", prop res "price");
        ("currency", prop res "cur");
        ("width", prop res "w");
        ("height", prop res "h");
        ("creativeId", prop res "creativeId");
        ("netRevenue", VBool true);
        ("ttl", or_else (prop res "ttl") (VNum 300));
        ("mediaType", BANNER);
        ("ad", ad)].

(** The body of the loop of [getBannerAd]. *)
Definition appendTracker (impTracker : value) : M world unit :=
  (tracker <- lift (createTrackPixelHtml impTracker) ;;
   ad <- PerRequest.res_get "ad" ;;
   PerRequest.res_set "ad" (plus_string ad tracker))%M.

(** The world holds a response object whose body is the object [props]. *)
Definition has_body (w : world) (props : list (string * value)) : Prop :=
  exists rprops, response w = VObj rprops /\ lookup "body" rprops = Some (VObj props).

(** The entry pushed for one sync URL. *)
Definition syncEntry (sync : value) : value :=
  VObj [("type", VStr (lit "image")); ("url", sync)].

(** The sync URLs a response carries: the [syncs] list of its body. *)
Definition syncsOf (res : value) : list value :=
  match prop (prop res "body") "syncs" with
  | VArr l => l
  | _ => []
  end.

(** A response object whose body is absent (falsy) or carries a sync
    list, possibly empty. *)
Definition carriesSyncList (res : value) : bool :=
  negb (nullish res) &&
  (negb (truthy (prop res "body")) ||
   match prop (prop res "body") "syncs" with
   | VArr _ => true
   | _ => false
   end).

(** A string without a lone surrogate ([String.prototype.isWellFormed]). *)
Fixpoint isWellFormed (s : jsstring) : bool :=
  match s with
  | [] => true
  | c :: rest =>
      if is_low_surrogate c then false
      else if is_high_surrogate c then
        match rest with
        | d :: rest' => is_low_surrogate d && isWellFormed rest'
        | [] => false
        end
      else isWellFormed rest
  end.

(** A value that a query string can carry: its string form is well formed. *)
Definition encodable (v : value) : bool := isWellFormed (ToString v).

(** The fields of a bid request that go into the query string. *)
Definition encodableBid (request : value) : bool :=
  encodable (prop request "transactionId") &&
  encodable (prop request "bidId") &&
  encodable (prop (prop request "params") "sid") &&
  encodable (prop (prop request "params") "native").

(** The entry of the aggregate body for one bid. *)
Definition requestOf (bid : value) : value :=
  VObj [("bid", prop bid "bidId"); ("sid", prop (prop bid "params") "sid")].

(** The native object has an asset list whose [length] is falsy: the case
    in which [getNativeAd] returns before it reads anything else. *)
Definition emptyAssets (resNative : value) : bool :=
  negb (nullish (prop resNative "assets")) &&
  negb (truthy (prop (prop resNative "assets") "length")).

(** The native bid the per-request adapter builds for a response body,
    given its native bundle. *)
Definition perRequestNativeBid (res nativeAd : value) : value :=
  VObj [("requestId", prop res "bid");
        ("cpm", prop res "price");
        ("currency", prop res "cur");
        ("width", prop res "w");
        ("height", prop res "h");
        ("creativeId", prop res "creativeId");
        ("netRevenue", VBool true);
        ("ttl", or_else (prop res "ttl") (VNum 300));
        ("mediaType", NATIVE);
        ("native", nativeAd)].

(** The rows of an aggregate response read in order: the bids pushed, or
    the exception of the first row that is [undefined] or [null], and what
    the rows before it logged. *)
Fixpoint aggregateRows (res : value) (rows : list value)
    : result (list value) * list (string * error) :=
  match rows with
  | [] => (Ok [], [])
  | row :: r =>
      if nullish row then (Throw TypeError, [])
      else
        (match fst (aggregateRows res r) with
         | Ok bids => Ok (aggregateBid res row (markupOf row) :: bids)
         | Throw e => Throw e
         end,
         markupLog row ++ snd (aggregateRows res r))
  end.

(** What the aggregate [interpretResponse] returns and logs, as a function
    of the response object. *)
Definition aggregateOutcome (serverResponses : value)
    : result (list value) * list (string * error) :=
  match get serverResponses "body" with
  | Throw e => (Throw e, [])
  | Ok res =>
      if isEmpty res then (Ok [], [])
      else aggregateRows res (_each (prop res "bids"))
  end.

(** The response after [res.ad = ad]: the body object with its [ad]
    replaced (or added last), in its place in the response. *)
Definition assignAd (response ad : value) : value :=
  match response with
  | VObj rprops =>
      match lookup "body" rprops with
      | Some (VObj props) => VObj (update "body" (VObj (update "ad" ad props)) rprops)
      | _ => response
      end
  | _ => response
  end.

(** The loop assigns [res.ad] at least once: there is a first tracker and
    its snippet can be made. *)
Definition firstAppends (imps : list value) : bool :=
  match imps with
  | impTracker :: _ =>
      match createTrackPixelHtml impTracker with
      | Ok _ => true
      | Throw _ => false
      end
  | [] => false
  end.

(** The [try] block of [getBannerAd], read as a function of the response
    body: the markup it leaves in [res.ad], and the exception it was left
    with, if any. *)
Definition perRequestTrackers (res : value) : value * option error :=
  match forEach (prop res "imps") with
  | Ok l => appendTrackers (prop res "ad") l
  | Throw e => (prop res "ad", Some e)
  end.

Definition perRequestAssigns (res : value) : bool :=
  match forEach (prop res "imps") with
  | Ok l => firstAppends l
  | Throw _ => false
  end.

(** What the per-request [interpretResponse] returns, and the world it
    leaves, as a function of the world it starts from. *)
Definition perRequestOutcome (w : world) : result (list value) * world :=
  match get (response w) "body" with
  | Throw e => (Throw e, w)
  | Ok res =>
      if isEmpty res then (Ok [], w)
      else
        match PerRequest.isNative res with
        | Throw e => (Throw e, w)
        | Ok true =>
            match PerRequest.getNativeAd (prop res "native") with
            | Ok nativeAd => (Ok [perRequestNativeBid res nativeAd], w)
            | Throw e => (Throw e, w)
            end
        | Ok false =>
            (Ok [perRequestBannerBid res (fst (perRequestTrackers res))],
             {| response := if perRequestAssigns res
                            then assignAd (response w) (fst (perRequestTrackers res))
                            else response w;
                console := console w ++ trackerLog (snd (perRequestTrackers res)) |})
        end
  end.

(** The text of one query-string field, [key=value&]. *)
Definition fieldText (kv : jsstring * jsstring) : jsstring :=
  fst kv ++ lit "=" ++ snd kv ++ lit "&".

(** Reading a query string back, as the receiving end does: a field ends
    at [&], and its key ends at its first [=]. [key] is the key of the field
    being read, once its [=] has been seen, and [cur] is the text read since
    the last delimiter. *)
Fixpoint readFields (s : jsstring) (key : option jsstring) (cur : jsstring)
    : list (jsstring * jsstring) :=
  match s with
  | [] => []
  | c :: r =>
      if (c =? 38)%N then
        match key with
        | Some k => (k, cur) :: readFields r None []
        | None => (cur, []) :: readFields r None []
        end
      else if (c =? 61)%N then
        match key with
        | Some _ => readFields r key (cur ++ [c])
        | None => readFields r (Some cur) []
        end
      else readFields r key (cur ++ [c])
  end.

(** A text without [&] and without [=]. *)
Definition delimiterFree (s : jsstring) : bool :=
  forallb (fun c => negb ((c =? 38) || (c =? 61))%N) s.

(** The field [tryAppendQueryString] emits for a key and a value: none for
    a falsy value, else the key with the value as [encodeURIComponent]
    writes it. *)
Definition emittedField (key : string) (v : value) : list (jsstring * jsstring) :=
  if truthy v then
    match encodeURIComponent v with
    | Ok e => [(lit key, e)]
    | Throw _ => []
    end
  else [].

(** The [eids] array of [buildRequests] for a bidder request. *)
Definition eidsOf (bidderRequest : value) : list value :=
  if truthy bidderRequest && truthy (prop bidderRequest "userId") then
    PerRequest.setUserId [] "liveramp.com" (deepAccess bidderRequest ["userId"; "idl_env"])
  else [].

(** The fields of the query string of one bid request, in order. *)
Definition queryFields (bidderRequest url cur dnt request : value)
    : list (jsstring * jsstring) :=
  emittedField "tid" (prop request "transactionId") ++
  emittedField "bid" (prop request "bidId") ++
  emittedField "ver" (VStr (lit "$prebid.version$")) ++
  emittedField "sid" (getBidIdParameter "sid" (prop request "params")) ++
  emittedField "url" url ++
  emittedField "cur" cur ++
  emittedField "dnt" dnt ++
  emittedField "native" (getBidIdParameter "native" (prop request "params")) ++
  emittedField "usr" (VArr (eidsOf bidderRequest)).

(** The bidder request carries a LiveRamp envelope that is a string: the
    case in which [setUserId] pushes an entry. *)
Definition hasEnvelope (bidderRequest : value) : bool :=
  truthy bidderRequest && truthy (prop bidderRequest "userId") &&
  isStr (deepAccess bidderRequest ["userId"; "idl_env"]).

(** A [meta] element whose [property] attribute is [og:url]. *)
Definition isOgUrl (m : option jsstring * jsstring) : bool :=
  match fst m with
  | Some p => Aggregate.jsstring_eqb p (lit "og:url")
  | None => false
  end.

(** An asset the [switch] of [getNativeAd] cannot read: [null], or an
    asset of a known id without the object that id reads from. *)
Definition unreadableAsset (asset : value) : bool :=
  nullish asset ||
  (strict_eq_num (prop asset "id") 0 && nullish (prop asset "title")) ||
  ((strict_eq_num (prop asset "id") 1 || strict_eq_num (prop asset "id") 2) &&
   nullish (prop asset "data")) ||
  ((strict_eq_num (prop asset "id") 3 || strict_eq_num (prop asset "id") 4) &&
   nullish (prop asset "img")).

(** *** Sample data *)

(** A banner row with one impression tracker. *)
Definition bannerRow : list (string * value) :=
  [("bid", VStr (lit "2b84475b5b636e"));
   ("price", VNum 20);
   ("w", VNum 300);
   ("h", VNum 250);
   ("creativeId", VStr (lit "985ec572b32be309.76973017"));
   ("ad", VStr (lit "<div>ad</div>"));
   ("imps", VArr [VStr (lit "http://t1")])].

(** A per-request response whose body is that row. *)
Definition bannerWorld : world :=
  {| response := VObj [("body", VObj (("cur", VStr (lit "JPY")) :: bannerRow))];
     console := [] |}.

(** An aggregate response with that row. *)
Definition bannerRowsWorld : world :=
  {| response := VObj [("body", VObj [("cur", VStr (lit "JPY"));
                                       ("ttl", VNum 60);
                                       ("bids", VArr [VObj bannerRow])])];
     console := [] |}.

(** A tracker that [encodeURI] rejects: a surrogate without its partner. *)
Definition malformedTracker : value := VStr [55296%N].

(** A row whose second tracker is malformed. *)
Definition brokenRow : list (string * value) :=
  [("bid", VStr (lit "2b84475b5b636e"));
   ("ad", VStr (lit "<div>ad</div>"));
   ("imps", VArr [VStr (lit "http://t1"); malformedTracker; VStr (lit "http://t2")])].

Definition brokenWorld : world :=
  {| response := VObj [("body", VObj brokenRow)]; console := [] |}.

Definition brokenRowsWorld : world :=
  {| response := VObj [("body", VObj [("bids", VArr [VObj bannerRow; VObj brokenRow])])];
     console := [] |}.

(** A native object as [getNativeAd] reads it: an asset list with a title
    and a click-through link. *)
Definition nativeObject : list (string * value) :=
  [("assets", VArr [VObj [("id", VNum 0); ("title", VObj [("text", VStr (lit "T"))])]]);
   ("link", VObj [("url", VStr (lit "http://click"))])].

Definition nativeWorld (native : value) : world :=
  {| response := VObj [("body", VObj [("bid", VStr (lit "2b84475b5b636e"));
                                       ("price", VNum 20);
                                       ("native", native)])];
     console := [] |}.

Definition pixelSyncOn : value := VObj [("pixelEnabled", VBool true)].

(** A response with a bid row and no sync list. *)
Definition responseWithoutSyncs : value :=
  VObj [("body", VObj [("bids", VArr [VObj bannerRow])])].

Definition responseWithSyncs (urls : list string) : value :=
  VObj [("body", VObj [("syncs", VArr (map (fun u => VStr (lit u)) urls))])].

(** A page without configured currency, do-not-track off. *)
Definition samplePage : platform :=
  {| adServerCurrency := VUndefined;
     doNotTrack := false;
     metas := [(Some (lit "og:url"), lit "https://hoge.com/canonical")];
     documentReferrer := lit "https://ref.example" |}.

Definition sampleBid (bidId : string) : value :=
  VObj [("bidder", VStr (lit "gmossp"));
        ("bidId", VStr (lit bidId));
        ("transactionId", VStr (lit "791e9d84-af92-4903-94da-24c7426d9d0c"));
        ("params", VObj [("sid", VStr (lit "123456"))])].

(** A bidder request with referer information and no user id. *)
Definition sampleBidderRequest : value :=
  VObj [("refererInfo", VObj [("referer", VStr (lit "https://hoge.com"));
                              ("topmostLocation", VStr (lit "https://hoge.com"))])].

(** A banner row without markup: trackers only. *)
Definition trackersOnlyRow : list (string * value) :=
  [("bid", VStr (lit "2b84475b5b636e"));
   ("imps", VArr [VStr (lit "http://t1"); VStr (lit "http://t2")])].

(** A banner row without tracker list. *)
Definition markupOnlyRow : list (string * value) :=
  [("bid", VStr (lit "2b84475b5b636e")); ("ad", VStr (lit "<div>ad</div>"))].

Definition worldOfBody (body : value) : world :=
  {| response := VObj [("headers", VObj []); ("body", body)]; console := [] |}.

(** A bidder request that carries a LiveRamp envelope. *)
Definition bidderRequestWithEnvelope : value :=
  VObj [("refererInfo", VObj [("referer", VStr (lit "https://hoge.com/?a=1&b=2"))]);
        ("userId", VObj [("idl_env", VStr (lit "AbCdEf"))])].

(** A bid whose site id holds a surrogate without its partner. *)
Definition bidWithMalformedSid : value :=
  VObj [("bidId", VStr (lit "2b84475b5b636e")); ("params", VObj [("sid", malformedTracker)])].

(** A native object with a link and no trackers or privacy fields. *)
Definition linkedNative : value :=
  VObj [("length", VNum 1);
        ("assets", VArr [VObj [("id", VNum 0); ("title", VObj [("text", VStr (lit "T"))])];
                         VObj [("id", VNum 1); ("data", VObj [("value", VStr (lit "B"))])]]);
        ("link", VObj [("url", VStr (lit "http://click"))])].

(** A native object whose second asset has id 3 and no [img]. *)
Definition nativeWithoutImg : value :=
  VObj [("length", VNum 2);
        ("assets", VArr [VObj [("id", VNum 0); ("title", VObj [("text", VStr (lit "T"))])];
                         VObj [("id", VNum 3)]]);
        ("link", VObj [("url", VStr (lit "http://click"))])].

(** A page whose first [og:url] element has no content. *)
Definition pageWithMetas : platform :=
  {| adServerCurrency := VUndefined;
     doNotTrack := true;
     metas := [(Some (lit "og:title"), lit "Hoge");
               (Some (lit "og:url"), []);
               (Some (lit "og:url"), lit "https://hoge.com/canonical");
               (Some (lit "og:url"), lit "https://hoge.com/other")];
     documentReferrer := lit "https://ref.example" |}.

(** One step of the query string: the field is appended, given the lemma
    that says so and the fact that the value can be encoded. *)
Ltac append_field ok H :=
  match goal with
  | |- context [tryAppendQueryString ?q ?k ?v] =>
      let q' := fresh "q" in
      let Hq := fresh "Hq" in
      destruct (ok q k v H) as [q' Hq]; rewrite Hq; cbn [rbind]
  end.

(** An absent or empty response body, in the words of the data model:
    no body at all, or an empty string, list or object. *)
Definition absent_or_empty (body : value) : Prop :=
  body = VUndefined \/ body = VNull \/ body = VStr [] \/ body = VArr [] \/ body = VObj [].

Lemma absent_or_empty_isEmpty (body : value) :
  absent_or_empty body -> isEmpty body = true.
Proof.
  intros [H | [H | [H | [H | H]]]]; subst body; reflexivity.
Qed.

(** C1. A response whose body is absent or empty yields the empty list of
    bids in both variants: the call completes normally, logs nothing and
    leaves the response as it was. *)
Theorem interpretResponse_empty_body (w : world) (body : value) :
  get (response w) "body" = Ok body ->
  absent_or_empty body ->
  PerRequest.interpretResponse w = (Ok [], w) /\
  Aggregate.interpretResponse w = (Ok [], w).
Proof.
  intros Hbody Hempty.
  apply absent_or_empty_isEmpty in Hempty.
  unfold PerRequest.interpretResponse, Aggregate.interpretResponse, bind, lift.
  rewrite Hbody, Hempty.
  split; reflexivity.
Qed.

Lemma interpretResponse_empty_body_witness :
  let w := {| response := VObj [("body", VObj [])]; console := [] |} in
  PerRequest.interpretResponse w = (Ok [], w) /\
  Aggregate.interpretResponse w = (Ok [], w).
Proof.
  intro w.
  apply (interpretResponse_empty_body w (VObj [])).
  - reflexivity.
  - right; right; right; right; reflexivity.
Defined.

(** C2. [isBidRequestValid] returns a boolean for every params object, the
    same in both variants, and it is [true] exactly when the params have a
    truthy [sid]; it is a function of its argument alone. *)
Theorem isBidRequestValid_iff_sid (bid : value) (bidParams : list (string * value)) :
  get bid "params" = Ok (VObj bidParams) ->
  exists b : bool,
    PerRequest.isBidRequestValid bid = Ok b /\
    Aggregate.isBidRequestValid bid = Ok b /\
    (b = true <-> exists sid, lookup "sid" bidParams = Some sid /\ truthy sid = true).
Proof.
  intros Hparams.
  unfold PerRequest.isBidRequestValid, Aggregate.isBidRequestValid, rbind.
  rewrite Hparams. unfold get, prop.
  destruct (lookup "sid" bidParams) as [sid |] eqn:Hsid.
  - exists (truthy sid). repeat split.
    + intros Ht. exists sid. split; [reflexivity | exact Ht].
    + intros [sid' [Heq Ht]]. injection Heq as <-. exact Ht.
  - exists false. repeat split.
    + discriminate.
    + intros [sid' [Heq _]]. discriminate.
Qed.

Lemma isBidRequestValid_iff_sid_witness :
  exists b : bool,
    PerRequest.isBidRequestValid
      (VObj [("params", VObj [("native", VBool true); ("sid", VStr (lit "123456"))])]) = Ok b /\
    Aggregate.isBidRequestValid
      (VObj [("params", VObj [("native", VBool true); ("sid", VStr (lit "123456"))])]) = Ok b /\
    (b = true <->
     exists sid,
       lookup "sid" [("native", VBool true); ("sid", VStr (lit "123456"))] = Some sid /\
       truthy sid = true).
Proof.
  apply (isBidRequestValid_iff_sid
           (VObj [("params", VObj [("native", VBool true); ("sid", VStr (lit "123456"))])])
           [("native", VBool true); ("sid", VStr (lit "123456"))]).
  reflexivity.
Defined.

(** *** The tracker loop *)

Lemma get_not_nullish (v : value) (k : string) :
  nullish v = false -> get v k = Ok (prop v k).
Proof.
  destruct v; simpl; intros H; try discriminate; reflexivity.
Qed.

Lemma logged_nil (w : world) : logged w [] = w.
Proof.
  destruct w as [r c]. unfold logged. simpl. rewrite app_nil_r. reflexivity.
Qed.

Lemma logged_logged (w : world) (a b : list (string * error)) :
  logged (logged w a) b = logged w (a ++ b).
Proof.
  unfold logged. simpl. rewrite app_assoc. reflexivity.
Qed.

Lemma createTrackPixelHtml_url (u e : jsstring) :
  u <> [] -> encodeURI (VStr u) = Ok e ->
  createTrackPixelHtml (VStr u) = Ok (pixel e).
Proof.
  intros Hu He. unfold createTrackPixelHtml.
  destruct u as [| c u']; [contradiction |].
  cbn [truthy negb]. rewrite He. reflexivity.
Qed.

(** With trackers that are non-empty URLs, the loop ends normally and has
    appended one snippet per URL, in order. *)
Lemma appendTrackers_urls (urls escaped : list jsstring) :
  Forall2 (fun u e => u <> [] /\ encodeURI (VStr u) = Ok e) urls escaped ->
  forall ad : jsstring,
    appendTrackers (VStr ad) (map VStr urls) =
    (VStr (ad ++ List.concat (map pixel escaped)), None).
Proof.
  induction 1 as [| u e urls escaped [Hu He] _ IH]; intros ad.
  - simpl. rewrite app_nil_r. reflexivity.
  - cbn [map appendTrackers List.concat].
    rewrite (createTrackPixelHtml_url u e Hu He).
    unfold plus_string. cbn [ToString].
    rewrite IH, app_assoc. reflexivity.
Qed.

(** A tracker whose snippet cannot be made ends the loop: the markup is
    what the trackers before it gave. *)
Lemma appendTrackers_throw (pre : list value) (snippets : list jsstring)
    (bad : value) (post : list value) (e : error) :
  Forall2 (fun t s => createTrackPixelHtml t = Ok s) pre snippets ->
  createTrackPixelHtml bad = Throw e ->
  forall ad : value,
    appendTrackers ad (pre ++ bad :: post) = (fold_left plus_string snippets ad, Some e).
Proof.
  intros Hpre Hbad.
  induction Hpre as [| t s pre snippets Ht _ IH]; intros ad.
  - simpl. rewrite Hbad. reflexivity.
  - cbn [app appendTrackers fold_left]. rewrite Ht. apply IH.
Qed.

(** The loop of the aggregate adapter, on its local variable. *)
Lemma aggregate_loop (imps : list value) :
  forall (ad : value) (w : world),
    for_each
      (fun impTracker =>
         (ad <- var_read ;;
          tracker <- lift (createTrackPixelHtml impTracker) ;;
          var_write (plus_string ad tracker))%M) imps (ad, w) =
    (match snd (appendTrackers ad imps) with
     | None => Ok tt
     | Some e => Throw e
     end, (fst (appendTrackers ad imps), w)).
Proof.
  induction imps as [| t imps IH]; intros ad w.
  - reflexivity.
  - cbn [for_each appendTrackers]. unfold bind at 1. unfold bind at 1.
    unfold var_read at 1. cbn [fst snd]. unfold bind at 1. unfold lift at 1.
    destruct (createTrackPixelHtml t) as [tracker | e].
    + unfold var_write at 1. cbn [fst snd]. apply IH.
    + reflexivity.
Qed.

Lemma bidOfRow_spec (res row : value) (w : world) :
  nullish res = false -> nullish row = false ->
  Aggregate.bidOfRow res row w =
  (Ok (aggregateBid res row (markupOf row)), logged w (markupLog row)).
Proof.
  intros Hres Hrow.
  unfold Aggregate.bidOfRow, markupOf, markupLog.
  unfold bind at 1. unfold lift at 1. rewrite (get_not_nullish row "ad" Hrow).
  unfold bind at 1. unfold with_var, try_catch.
  unfold bind at 1. unfold lift at 1. rewrite (get_not_nullish row "imps" Hrow).
  rewrite aggregate_loop.
  destruct (appendTrackers (prop row "ad") (_each (prop row "imps"))) as [ad' [e |]];
    cbn [fst snd trackerLog]; unfold outer, logError; cbn [fst snd];
    unfold bind, lift, ret;
    rewrite !(get_not_nullish row _ Hrow), !(get_not_nullish res _ Hres);
    [| rewrite logged_nil]; reflexivity.
Qed.

Lemma collect_bidOfRow (res : value) (rows : list value) :
  nullish res = false ->
  Forall (fun row => nullish row = false) rows ->
  forall w : world,
    collect (Aggregate.bidOfRow res) rows w =
    (Ok (map (fun row => aggregateBid res row (markupOf row)) rows),
     logged w (flat_map markupLog rows)).
Proof.
  intros Hres Hrows.
  induction Hrows as [| row rows Hrow _ IH]; intros w.
  - cbn [collect map flat_map]. rewrite logged_nil. reflexivity.
  - cbn [collect map flat_map]. unfold bind at 1.
    rewrite (bidOfRow_spec res row w Hres Hrow).
    unfold bind at 1. rewrite IH. unfold ret. rewrite logged_logged. reflexivity.
Qed.

Lemma aggregate_interpretResponse_spec (w : world) (res : value) :
  get (response w) "body" = Ok res ->
  isEmpty res = false ->
  Forall (fun row => nullish row = false) (_each (prop res "bids")) ->
  Aggregate.interpretResponse w =
  (Ok (map (fun row => aggregateBid res row (markupOf row)) (_each (prop res "bids"))),
   logged w (flat_map markupLog (_each (prop res "bids")))).
Proof.
  intros Hbody Hne Hrows.
  assert (Hres : nullish res = false) by (destruct res; try reflexivity; discriminate).
  unfold Aggregate.interpretResponse.
  unfold bind at 1. unfold lift at 1. rewrite Hbody, Hne.
  unfold bind at 1. unfold lift at 1. rewrite (get_not_nullish res "bids" Hres).
  apply collect_bidOfRow; assumption.
Qed.

Lemma lookup_update_same (k : string) (v : value) (ps : list (string * value)) :
  lookup k (update k v ps) = Some v.
Proof.
  induction ps as [| [k' v'] ps IH]; simpl.
  - rewrite String.eqb_refl. reflexivity.
  - destruct (String.eqb k k') eqn:E; simpl.
    + rewrite String.eqb_refl. reflexivity.
    + rewrite E. exact IH.
Qed.

Lemma has_body_get (w : world) (props : list (string * value)) :
  has_body w props -> get (response w) "body" = Ok (VObj props).
Proof.
  intros [rprops [Hr Hb]]. rewrite Hr. simpl. rewrite Hb. reflexivity.
Qed.

Lemma res_get_has_body (w : world) (props : list (string * value)) (k : string) :
  has_body w props -> PerRequest.res_get k w = (Ok (prop (VObj props) k), w).
Proof.
  intros H. unfold PerRequest.res_get. rewrite (has_body_get w props H). reflexivity.
Qed.

Lemma res_set_has_body (w : world) (props : list (string * value)) (k : string) (v : value) :
  has_body w props ->
  exists w',
    PerRequest.res_set k v w = (Ok tt, w') /\
    console w' = console w /\
    has_body w' (update k v props).
Proof.
  intros H. unfold PerRequest.res_set. rewrite (has_body_get w props H).
  destruct H as [rprops [Hr Hb]]. rewrite Hr. cbn [rbind set].
  eexists. split; [reflexivity |]. split; [reflexivity |].
  exists (update "body" (VObj (update k v props)) rprops). split; [reflexivity |].
  apply lookup_update_same.
Qed.

(** The loop of the per-request adapter, on the shared response body. *)
Lemma per_request_loop (imps : list value) :
  forall (w : world) (props : list (string * value)),
    has_body w props ->
    exists (w' : world) (props' : list (string * value)),
      for_each appendTracker imps w =
      (match snd (appendTrackers (prop (VObj props) "ad") imps) with
       | None => Ok tt
       | Some e => Throw e
       end, w') /\
      console w' = console w /\
      has_body w' props' /\
      prop (VObj props') "ad" = fst (appendTrackers (prop (VObj props) "ad") imps).
Proof.
  induction imps as [| t imps IH]; intros w props Hw.
  - exists w, props. repeat split; assumption || reflexivity.
  - cbn [for_each appendTrackers]. unfold bind at 1. unfold appendTracker at 1.
    unfold bind at 1. unfold lift at 1.
    destruct (createTrackPixelHtml t) as [tracker | e].
    + unfold bind at 1. rewrite (res_get_has_body w props "ad" Hw).
      destruct (res_set_has_body w props "ad" (plus_string (prop (VObj props) "ad") tracker) Hw)
        as [w1 [Hset [Hlog Hw1]]].
      rewrite Hset.
      destruct (IH w1 _ Hw1) as [w' [props' [Hloop [Hlog' [Hw' Had]]]]].
      assert (Hinit : prop (VObj (update "ad" (plus_string (prop (VObj props) "ad") tracker) props)) "ad"
                      = plus_string (prop (VObj props) "ad") tracker).
      { cbn [prop]. rewrite lookup_update_same. reflexivity. }
      rewrite Hinit in Hloop, Had.
      exists w', props'. repeat split; try assumption. congruence.
    + exists w, props. repeat split; assumption || reflexivity.
Qed.

Lemma getBannerAd_spec (w : world) (props : list (string * value)) (imps : list value) :
  has_body w props ->
  prop (VObj props) "imps" = VArr imps ->
  exists w',
    PerRequest.getBannerAd w =
    (Ok (fst (appendTrackers (prop (VObj props) "ad") imps)), w') /\
    console w' = console w ++ trackerLog (snd (appendTrackers (prop (VObj props) "ad") imps)).
Proof.
  intros Hw Himps.
  unfold PerRequest.getBannerAd.
  unfold bind at 1. unfold try_catch.
  unfold bind at 1. rewrite (res_get_has_body w props "imps" Hw), Himps.
  unfold bind at 1. unfold lift at 1. cbn [forEach].
  destruct (per_request_loop imps w props Hw) as [w' [props' [Hloop [Hlog [Hw' Had]]]]].
  change (for_each _ imps w) with (for_each appendTracker imps w).
  rewrite Hloop.
  destruct (snd (appendTrackers (prop (VObj props) "ad") imps)) as [e |].
  - unfold logError. cbn [response console].
    assert (Hl : has_body {| response := response w'; console := console w' ++ [("Error appending tracking pixel", e)] |} props').
    { exact Hw'. }
    rewrite (res_get_has_body _ props' "ad" Hl), Had.
    eexists. split; [reflexivity |]. cbn [console trackerLog]. rewrite Hlog. reflexivity.
  - rewrite (res_get_has_body w' props' "ad" Hw'), Had.
    exists w'. split; [reflexivity |]. cbn [trackerLog]. rewrite app_nil_r. exact Hlog.
Qed.

Lemma per_request_banner_spec (w : world) (props : list (string * value)) (imps : list value) :
  has_body w props ->
  PerRequest.isNative (VObj props) = Ok false ->
  prop (VObj props) "imps" = VArr imps ->
  exists w',
    PerRequest.interpretResponse w =
    (Ok [perRequestBannerBid (VObj props) (fst (appendTrackers (prop (VObj props) "ad") imps))], w') /\
    console w' = console w ++ trackerLog (snd (appendTrackers (prop (VObj props) "ad") imps)).
Proof.
  intros Hw Hnat Himps.
  assert (Hne : isEmpty (VObj props) = false).
  { destruct props; [discriminate Himps | reflexivity]. }
  destruct (getBannerAd_spec w props imps Hw Himps) as [w' [Hban Hlog]].
  exists w'. split; [| exact Hlog].
  unfold PerRequest.interpretResponse.
  unfold bind at 1. unfold lift at 1. rewrite (has_body_get w props Hw), Hne.
  unfold bind, lift. cbn [get]. rewrite Hnat. cbn [set update String.eqb Ascii.eqb Bool.eqb].
  rewrite Hban. reflexivity.
Qed.

Lemma isNative_without_native (props : list (string * value)) :
  lookup "native" props = None -> PerRequest.isNative (VObj props) = Ok false.
Proof.
  intros H. unfold PerRequest.isNative. cbn [get prop rbind]. rewrite H. reflexivity.
Qed.

Lemma prop_lookup (props : list (string * value)) (k : string) (v : value) :
  lookup k props = Some v -> prop (VObj props) k = v.
Proof.
  intros H. cbn [prop]. rewrite H. reflexivity.
Qed.

(** The bid of a row of the aggregate response, by its position. *)
Lemma aggregate_row_bid (w : world) (res : value) (rows : list value) (i : nat) (row : value) :
  get (response w) "body" = Ok res ->
  prop res "bids" = VArr rows ->
  Forall (fun r => nullish r = false) rows ->
  nth_error rows i = Some row ->
  exists (bids : list value) (w' : world),
    Aggregate.interpretResponse w = (Ok bids, w') /\
    List.length bids = List.length rows /\
    nth_error bids i = Some (aggregateBid res row (markupOf row)) /\
    response w' = response w /\
    forall entry, In entry (markupLog row) -> In entry (console w').
Proof.
  intros Hbody Hbids Hrows Hrow.
  assert (Hne : isEmpty res = false).
  { destruct res as [| | | | s | l | ps]; try discriminate Hbids.
    destruct ps; [discriminate Hbids | reflexivity]. }
  pose proof (aggregate_interpretResponse_spec w res Hbody Hne) as Hspec.
  rewrite Hbids in Hspec. cbn [_each] in Hspec. specialize (Hspec Hrows).
  eexists. eexists. split; [exact Hspec |].
  split; [apply length_map |].
  split; [exact (map_nth_error (fun r => aggregateBid res r (markupOf r)) i rows Hrow) |].
  split; [reflexivity |].
  intros entry Hin. cbn [logged console]. apply in_or_app. right.
  apply in_flat_map. exists row. split; [| exact Hin].
  eapply nth_error_In. exact Hrow.
Qed.

(** C4. For a banner row that carries the markup string [ad] and the
    tracker URLs [urls], the bid's markup is [ad] followed by one pixel
    snippet per URL, in the order of the URLs; each snippet references its
    URL as [encodeURI] writes it. In the per-request variant the row is the
    response body; in the aggregate variant it is any row of [bids]. *)
Theorem banner_markup_one_pixel_per_tracker
    (props : list (string * value)) (ad : jsstring) (urls escaped : list jsstring) :
  lookup "ad" props = Some (VStr ad) ->
  lookup "imps" props = Some (VArr (map VStr urls)) ->
  Forall2 (fun u e => u <> [] /\ encodeURI (VStr u) = Ok e) urls escaped ->
  (forall w : world,
     has_body w props ->
     lookup "native" props = None ->
     exists (bid : value) (w' : world),
       PerRequest.interpretResponse w = (Ok [bid], w') /\
       prop bid "mediaType" = BANNER /\
       prop bid "ad" = VStr (ad ++ List.concat (map pixel escaped))) /\
  (forall (w : world) (res : value) (rows : list value) (i : nat),
     get (response w) "body" = Ok res ->
     prop res "bids" = VArr rows ->
     Forall (fun r => nullish r = false) rows ->
     nth_error rows i = Some (VObj props) ->
     exists (bids : list value) (w' : world) (bid : value),
       Aggregate.interpretResponse w = (Ok bids, w') /\
       List.length bids = List.length rows /\
       nth_error bids i = Some bid /\
       prop bid "ad" = VStr (ad ++ List.concat (map pixel escaped))).
Proof.
  intros Had Himps Hurls.
  pose proof (appendTrackers_urls urls escaped Hurls ad) as Hloop.
  split.
  - intros w Hw Hnat.
    destruct (per_request_banner_spec w props (map VStr urls) Hw
                (isNative_without_native props Hnat) (prop_lookup props "imps" _ Himps))
      as [w' [Hrun _]].
    rewrite (prop_lookup props "ad" _ Had), Hloop in Hrun.
    eexists. exists w'. split; [exact Hrun |]. split; reflexivity.
  - intros w res rows i Hbody Hbids Hrows Hrow.
    destruct (aggregate_row_bid w res rows i (VObj props) Hbody Hbids Hrows Hrow)
      as [bids [w' [Hrun [Hlen [Hnth _]]]]].
    exists bids, w'. eexists. split; [exact Hrun |]. split; [exact Hlen |].
    split; [exact Hnth |].
    unfold aggregateBid, markupOf. cbn [prop lookup String.eqb Ascii.eqb Bool.eqb].
    rewrite Had, Himps. cbn [_each]. rewrite Hloop. reflexivity.
Qed.

(** C5. When the snippet of some tracker cannot be made, the exception is
    caught and handed to the logging sink, [interpretResponse] completes
    normally, and the bid carries the markup assembled from the trackers
    before the failing one. *)
Theorem tracker_failure_is_caught
    (props : list (string * value)) (pre : list value) (snippets : list jsstring)
    (bad : value) (post : list value) (e : error) :
  lookup "imps" props = Some (VArr (pre ++ bad :: post)) ->
  Forall2 (fun t s => createTrackPixelHtml t = Ok s) pre snippets ->
  createTrackPixelHtml bad = Throw e ->
  (forall w : world,
     has_body w props ->
     lookup "native" props = None ->
     exists (bid : value) (w' : world),
       PerRequest.interpretResponse w = (Ok [bid], w') /\
       prop bid "ad" = fold_left plus_string snippets (prop (VObj props) "ad") /\
       console w' = console w ++ [("Error appending tracking pixel", e)]) /\
  (forall (w : world) (res : value) (rows : list value) (i : nat),
     get (response w) "body" = Ok res ->
     prop res "bids" = VArr rows ->
     Forall (fun r => nullish r = false) rows ->
     nth_error rows i = Some (VObj props) ->
     exists (bids : list value) (w' : world) (bid : value),
       Aggregate.interpretResponse w = (Ok bids, w') /\
       List.length bids = List.length rows /\
       nth_error bids i = Some bid /\
       prop bid "ad" = fold_left plus_string snippets (prop (VObj props) "ad") /\
       In ("Error appending tracking pixel", e) (console w')).
Proof.
  intros Himps Hpre Hbad.
  pose proof (appendTrackers_throw pre snippets bad post e Hpre Hbad
                (prop (VObj props) "ad")) as Hloop.
  split.
  - intros w Hw Hnat.
    destruct (per_request_banner_spec w props (pre ++ bad :: post) Hw
                (isNative_without_native props Hnat) (prop_lookup props "imps" _ Himps))
      as [w' [Hrun Hlog]].
    rewrite Hloop in Hrun, Hlog.
    eexists. exists w'. split; [exact Hrun |]. split; [reflexivity | exact Hlog].
  - intros w res rows i Hbody Hbids Hrows Hrow.
    destruct (aggregate_row_bid w res rows i (VObj props) Hbody Hbids Hrows Hrow)
      as [bids [w' [Hrun [Hlen [Hnth [_ Hlog]]]]]].
    assert (Hm : appendTrackers (prop (VObj props) "ad") (_each (prop (VObj props) "imps"))
                 = (fold_left plus_string snippets (prop (VObj props) "ad"), Some e)).
    { rewrite (prop_lookup props "imps" _ Himps). exact Hloop. }
    exists bids, w'. eexists. split; [exact Hrun |]. split; [exact Hlen |].
    split; [exact Hnth |]. split.
    + unfold aggregateBid, markupOf. rewrite Hm. reflexivity.
    + apply Hlog. unfold markupLog. rewrite Hm. left. reflexivity.
Qed.

Lemma banner_markup_one_pixel_per_tracker_witness :
  (exists (bid : value) (w' : world),
     PerRequest.interpretResponse bannerWorld = (Ok [bid], w') /\
     prop bid "mediaType" = BANNER /\
     prop bid "ad" = VStr (lit "<div>ad</div>" ++ pixel (lit "http://t1") ++ [])) /\
  (exists (bids : list value) (w' : world) (bid : value),
     Aggregate.interpretResponse bannerRowsWorld = (Ok bids, w') /\
     List.length bids = 1%nat /\
     nth_error bids 0 = Some bid /\
     prop bid "ad" = VStr (lit "<div>ad</div>" ++ pixel (lit "http://t1") ++ [])).
Proof.
  assert (Hurls : Forall2 (fun u e => u <> [] /\ encodeURI (VStr u) = Ok e)
                    [lit "http://t1"] [lit "http://t1"]).
  { constructor; [split; [discriminate | reflexivity] | constructor]. }
  destruct (banner_markup_one_pixel_per_tracker
              (("cur", VStr (lit "JPY")) :: bannerRow) (lit "<div>ad</div>")
              [lit "http://t1"] [lit "http://t1"] eq_refl eq_refl Hurls) as [Hget _].
  destruct (banner_markup_one_pixel_per_tracker
              bannerRow (lit "<div>ad</div>")
              [lit "http://t1"] [lit "http://t1"] eq_refl eq_refl Hurls) as [_ Hpost].
  split.
  - apply Hget.
    + eexists. split; reflexivity.
    + reflexivity.
  - apply (Hpost bannerRowsWorld
             (VObj [("cur", VStr (lit "JPY")); ("ttl", VNum 60); ("bids", VArr [VObj bannerRow])])
             [VObj bannerRow] 0%nat).
    + reflexivity.
    + reflexivity.
    + constructor; [reflexivity | constructor].
    + reflexivity.
Defined.

Lemma tracker_failure_is_caught_witness :
  (exists (bid : value) (w' : world),
     PerRequest.interpretResponse brokenWorld = (Ok [bid], w') /\
     prop bid "ad" = plus_string (VStr (lit "<div>ad</div>")) (pixel (lit "http://t1")) /\
     console w' = [] ++ [("Error appending tracking pixel", URIError)]) /\
  (exists (bids : list value) (w' : world) (bid : value),
     Aggregate.interpretResponse brokenRowsWorld = (Ok bids, w') /\
     List.length bids = 2%nat /\
     nth_error bids 1 = Some bid /\
     prop bid "ad" = plus_string (VStr (lit "<div>ad</div>")) (pixel (lit "http://t1")) /\
     In ("Error appending tracking pixel", URIError) (console w')).
Proof.
  destruct (tracker_failure_is_caught brokenRow [VStr (lit "http://t1")] [pixel (lit "http://t1")]
              malformedTracker [VStr (lit "http://t2")] URIError) as [Hget Hpost].
  - reflexivity.
  - constructor; [reflexivity | constructor].
  - reflexivity.
  - split.
    + apply Hget.
      * eexists. split; reflexivity.
      * reflexivity.
    + apply (Hpost brokenRowsWorld (VObj [("bids", VArr [VObj bannerRow; VObj brokenRow])])
               [VObj bannerRow; VObj brokenRow] 1%nat).
      * reflexivity.
      * reflexivity.
      * repeat constructor.
      * reflexivity.
Defined.

(** C3 (per-request variant). The first call appends the pixel snippet to
    [res.ad] inside the response it was given, so a second call on the same
    response starts from the markup of the first and returns a bid whose
    markup has the snippet twice. *)
Theorem per_request_second_call_differs :
  let first := PerRequest.interpretResponse bannerWorld in
  let second := PerRequest.interpretResponse (snd first) in
  fst first =
    Ok [perRequestBannerBid (VObj (("cur", VStr (lit "JPY")) :: bannerRow))
          (VStr (lit "<div>ad</div>" ++ pixel (lit "http://t1")))] /\
  fst second =
    Ok [perRequestBannerBid (VObj (("cur", VStr (lit "JPY")) :: bannerRow))
          (VStr (lit "<div>ad</div>" ++ pixel (lit "http://t1") ++ pixel (lit "http://t1")))] /\
  fst first <> fst second /\
  response (snd first) <> response bannerWorld.
Proof.
  cbv zeta. split; [vm_compute; reflexivity |]. split; [vm_compute; reflexivity |].
  split; intros H; vm_compute in H; discriminate H.
Qed.

(** C6. A native object with a non-empty asset list has no [length], so the
    test [res.native.length > 0] fails and the response is treated as a
    banner: the bid has no [native] bundle, and the banner path logs its
    missing tracker list. When [native] is the asset list itself, the test
    passes and [getNativeAd] throws, because a list has no [assets]. Only a
    native object that also has a [length] of its own is classified native
    and has its title mapped. *)
Theorem native_assets_classified_banner :
  PerRequest.interpretResponse (nativeWorld (VObj nativeObject)) =
    (Ok [perRequestBannerBid (prop (response (nativeWorld (VObj nativeObject))) "body") VUndefined],
     logged (nativeWorld (VObj nativeObject)) [("Error appending tracking pixel", TypeError)]) /\
  PerRequest.interpretResponse (nativeWorld (prop (VObj nativeObject) "assets")) =
    (Throw TypeError, nativeWorld (prop (VObj nativeObject) "assets")) /\
  (exists (bid : value) (w' : world),
     PerRequest.interpretResponse (nativeWorld (VObj (("length", VNum 1) :: nativeObject))) =
       (Ok [bid], w') /\
     prop bid "mediaType" = NATIVE /\
     prop (prop bid "native") "title" = VStr (lit "T")).
Proof.
  split; [vm_compute; reflexivity |].
  split; [vm_compute; reflexivity |].
  eexists. eexists. split; [vm_compute; reflexivity |]. split; vm_compute; reflexivity.
Qed.

(** *** User syncs *)

Lemma rmap_ok {A B : Type} (f : A -> result B) (g : A -> B) (l : list A) :
  Forall (fun x => f x = Ok (g x)) l -> rmap f l = Ok (map g l).
Proof.
  induction 1 as [| x l Hx _ IH]; simpl.
  - reflexivity.
  - rewrite Hx, IH. reflexivity.
Qed.

Lemma syncsOf_falsy_body (res : value) :
  truthy (prop res "body") = false -> syncsOf res = [].
Proof.
  unfold syncsOf.
  destruct (prop res "body") as [| | b | z | s | l | ps]; intros H;
    reflexivity || discriminate H.
Qed.

(** What one response contributes, in both variants. *)
Lemma userSyncsOf_spec (syncOptions res : value) :
  nullish syncOptions = false ->
  truthy (prop syncOptions "pixelEnabled") = false \/ carriesSyncList res = true ->
  let pushed :=
    if truthy (prop syncOptions "pixelEnabled") then map syncEntry (syncsOf res) else [] in
  PerRequest.userSyncsOf syncOptions res = Ok pushed /\
  Aggregate.userSyncsOf syncOptions res = Ok pushed.
Proof.
  intros Hopt Hcase. cbv zeta.
  unfold PerRequest.userSyncsOf, Aggregate.userSyncsOf.
  rewrite (get_not_nullish syncOptions "pixelEnabled" Hopt). cbn [rbind].
  destruct (truthy (prop syncOptions "pixelEnabled")) eqn:Hpe; [| split; reflexivity].
  destruct Hcase as [Hoff | Hres]; [discriminate Hoff |].
  unfold carriesSyncList in Hres. apply andb_prop in Hres. destruct Hres as [Hnn Hbody].
  apply negb_true_iff in Hnn.
  rewrite (get_not_nullish res "body" Hnn). cbn [rbind].
  destruct (truthy (prop res "body")) eqn:Htb.
  - cbn [negb orb] in Hbody.
    assert (Hbn : nullish (prop res "body") = false).
    { destruct (prop res "body"); try reflexivity; discriminate Htb. }
    rewrite (get_not_nullish _ "syncs" Hbn). cbn [rbind]. unfold syncsOf.
    destruct (prop (prop res "body") "syncs") as [| | b | z | s | l | ps];
      try discriminate Hbody.
    destruct l as [| sync l]; split; reflexivity.
  - rewrite (syncsOf_falsy_body res Htb). split; reflexivity.
Qed.

(** C7, as amended. With pixel syncing disabled the result is empty. With
    it enabled, and every response either without a body or with a sync
    list, the call returns normally with one image entry per sync URL, the
    responses in order and the URLs of each response in order, duplicates
    kept; a response with an empty sync list contributes nothing. *)
Theorem getUserSyncs_in_response_order (syncOptions : value) (serverResponses : list value) :
  nullish syncOptions = false ->
  truthy (prop syncOptions "pixelEnabled") = false \/
  forallb carriesSyncList serverResponses = true ->
  let expected :=
    if truthy (prop syncOptions "pixelEnabled")
    then flat_map (fun res => map syncEntry (syncsOf res)) serverResponses
    else [] in
  PerRequest.getUserSyncs syncOptions serverResponses = Ok expected /\
  Aggregate.getUserSyncs syncOptions serverResponses = Ok expected.
Proof.
  intros Hopt Hcase. cbv zeta.
  set (g := fun res : value =>
              if truthy (prop syncOptions "pixelEnabled")
              then map syncEntry (syncsOf res) else []).
  assert (Hall : Forall (fun res => PerRequest.userSyncsOf syncOptions res = Ok (g res) /\
                                    Aggregate.userSyncsOf syncOptions res = Ok (g res))
                   serverResponses).
  { apply Forall_forall. intros res Hin. apply userSyncsOf_spec; [exact Hopt |].
    destruct Hcase as [Hoff | Hall]; [left; exact Hoff | right].
    rewrite forallb_forall in Hall. apply Hall. exact Hin. }
  assert (Hconcat : List.concat (map g serverResponses) =
                    if truthy (prop syncOptions "pixelEnabled")
                    then flat_map (fun res => map syncEntry (syncsOf res)) serverResponses
                    else []).
  { unfold g. destruct (truthy (prop syncOptions "pixelEnabled")).
    - symmetry. apply flat_map_concat_map.
    - clear. induction serverResponses as [| r l IH]; [reflexivity | exact IH]. }
  unfold PerRequest.getUserSyncs, Aggregate.getUserSyncs.
  destruct serverResponses as [| r l] eqn:Hl.
  - destruct (truthy (prop syncOptions "pixelEnabled")); split; reflexivity.
  - rewrite <- Hl in *. split.
    + rewrite (rmap_ok _ g); [cbn [rbind]; rewrite Hconcat; reflexivity |].
      eapply Forall_impl; [| exact Hall]. intros a [Ha _]. exact Ha.
    + rewrite (rmap_ok _ g); [cbn [rbind]; rewrite Hconcat; reflexivity |].
      eapply Forall_impl; [| exact Hall]. intros a [_ Ha]. exact Ha.
Qed.

Lemma getUserSyncs_in_response_order_witness :
  let responses :=
    [responseWithSyncs ["https://s1"; "https://s2"];
     responseWithSyncs [];
     VObj [];
     responseWithSyncs ["https://s1"]] in
  let expected :=
    [syncEntry (VStr (lit "https://s1")); syncEntry (VStr (lit "https://s2"));
     syncEntry (VStr (lit "https://s1"))] in
  PerRequest.getUserSyncs pixelSyncOn responses = Ok expected /\
  Aggregate.getUserSyncs pixelSyncOn responses = Ok expected.
Proof.
  cbv zeta.
  apply (getUserSyncs_in_response_order pixelSyncOn
           [responseWithSyncs ["https://s1"; "https://s2"];
            responseWithSyncs [];
            VObj [];
            responseWithSyncs ["https://s1"]]).
  - reflexivity.
  - right. reflexivity.
Defined.

(** C7, as stated, fails: with pixel syncing enabled, a response whose
    body has no sync list makes [getUserSyncs] throw, in both variants. *)
Lemma getUserSyncs_missing_sync_list_throws :
  PerRequest.getUserSyncs pixelSyncOn [responseWithoutSyncs] = Throw TypeError /\
  Aggregate.getUserSyncs pixelSyncOn [responseWithoutSyncs] = Throw TypeError.
Proof.
  split; reflexivity.
Qed.

(** *** Requests *)

Lemma uri_unescaped_ascii (c : code_unit) :
  uri_unescaped c = true -> (c < 128)%N.
Proof.
  unfold uri_unescaped, is_alnum, in_range, mem_lit. simpl.
  rewrite !orb_true_iff, !andb_true_iff, !N.leb_le, !N.eqb_eq. lia.
Qed.

Lemma uri_unescaped_not_surrogate (c : code_unit) :
  uri_unescaped c = true -> is_low_surrogate c = false /\ is_high_surrogate c = false.
Proof.
  intros H. apply uri_unescaped_ascii in H.
  unfold is_low_surrogate, is_high_surrogate, in_range.
  split; apply andb_false_iff; left; apply N.leb_gt; lia.
Qed.

(** [encodeURIComponent] succeeds on a well-formed string. *)
Lemma Encode_wellFormed (n : nat) :
  forall s : jsstring,
    (List.length s <= n)%nat ->
    isWellFormed s = true ->
    exists e, Encode uri_unescaped s = Ok e.
Proof.
  induction n as [| n IH]; intros s Hlen Hwf.
  - destruct s; [exists []; reflexivity | simpl in Hlen; lia].
  - destruct s as [| c rest]; [exists []; reflexivity |].
    simpl in Hlen. cbn [Encode]. cbn [isWellFormed] in Hwf.
    destruct (uri_unescaped c) eqn:Hu.
    + destruct (uri_unescaped_not_surrogate c Hu) as [Hlo Hhi].
      rewrite Hlo, Hhi in Hwf.
      destruct (IH rest ltac:(lia) Hwf) as [e He]. rewrite He. eexists. reflexivity.
    + destruct (is_low_surrogate c); [discriminate Hwf |].
      destruct (is_high_surrogate c).
      * destruct rest as [| d rest']; [discriminate Hwf |].
        apply andb_prop in Hwf. destruct Hwf as [Hd Hwf]. rewrite Hd.
        simpl in Hlen.
        destruct (IH rest' ltac:(lia) Hwf) as [e He]. rewrite He. eexists. reflexivity.
      * destruct (IH rest ltac:(lia) Hwf) as [e He]. rewrite He. eexists. reflexivity.
Qed.

Lemma tryAppendQueryString_ok (q : jsstring) (key : string) (v : value) :
  encodable v = true -> exists q', tryAppendQueryString q key v = Ok q'.
Proof.
  intros H. unfold tryAppendQueryString.
  destruct (truthy v); [| eexists; reflexivity].
  unfold encodeURIComponent.
  destruct (Encode_wellFormed (List.length (ToString v)) (ToString v) (le_n _) H) as [e He].
  rewrite He. eexists. reflexivity.
Qed.

Lemma getBidIdParameter_encodable (key : string) (params : value) :
  encodable (prop params key) = true -> encodable (getBidIdParameter key params) = true.
Proof.
  intros H. unfold getBidIdParameter.
  destruct (truthy params && truthy (prop params key)); [exact H | reflexivity].
Qed.

(** A bid the adapter admits is an object whose params are an object with
    a truthy site id. *)
Lemma valid_bid_inv (bid : value) :
  PerRequest.isBidRequestValid bid = Ok true ->
  nullish bid = false /\
  exists ps, prop bid "params" = VObj ps /\ truthy (prop (VObj ps) "sid") = true.
Proof.
  unfold PerRequest.isBidRequestValid. intros H.
  assert (Hn : nullish bid = false) by (destruct bid; try reflexivity; discriminate H).
  split; [exact Hn |].
  rewrite (get_not_nullish bid "params" Hn) in H. cbn [rbind] in H.
  destruct (prop bid "params") as [| | b | z | s | l | ps]; try discriminate H.
  exists ps. split; [reflexivity |]. cbn [get rbind] in H. injection H as H. exact H.
Qed.

Lemma buildRequest_ok (bidderRequest url cur dnt request : value) :
  nullish request = false ->
  encodableBid request = true ->
  encodable url = true -> encodable cur = true -> encodable dnt = true ->
  exists data,
    PerRequest.buildRequest bidderRequest url cur dnt request =
    Ok (VObj [("method", VStr (lit "GET"));
              ("url", VStr PerRequest.ENDPOINT);
              ("data", VStr data)]).
Proof.
  intros Hn Henc Hurl Hcur Hdnt.
  unfold encodableBid in Henc.
  apply andb_prop in Henc. destruct Henc as [Henc Hnative].
  apply andb_prop in Henc. destruct Henc as [Henc Hsid].
  apply andb_prop in Henc. destruct Henc as [Htid Hbid].
  unfold PerRequest.buildRequest.
  rewrite !(get_not_nullish request _ Hn). cbn [rbind].
  append_field tryAppendQueryString_ok Htid.
  append_field tryAppendQueryString_ok Hbid.
  append_field tryAppendQueryString_ok (eq_refl : encodable (VStr (lit "$prebid.version$")) = true).
  append_field tryAppendQueryString_ok (getBidIdParameter_encodable "sid" _ Hsid).
  append_field tryAppendQueryString_ok Hurl.
  append_field tryAppendQueryString_ok Hcur.
  append_field tryAppendQueryString_ok Hdnt.
  append_field tryAppendQueryString_ok (getBidIdParameter_encodable "native" _ Hnative).
  assert (Husr : forall v, encodable (VArr (PerRequest.setUserId [] "liveramp.com" v)) = true).
  { intros v. unfold PerRequest.setUserId. destruct (isStr v); reflexivity. }
  destruct (truthy bidderRequest && truthy (prop bidderRequest "userId")).
  - append_field tryAppendQueryString_ok (Husr (deepAccess bidderRequest ["userId"; "idl_env"])).
    eexists. reflexivity.
  - append_field tryAppendQueryString_ok (eq_refl : encodable (VArr []) = true).
    eexists. reflexivity.
Qed.

Lemma rmap_Forall2 {A B : Type} (f : A -> result B) (l : list A) :
  Forall (fun x => exists y, f x = Ok y) l ->
  exists ys, rmap f l = Ok ys /\ Forall2 (fun x y => f x = Ok y) l ys.
Proof.
  induction 1 as [| x l [y Hy] _ [ys [Hys Hall]]]; simpl.
  - exists []. split; [reflexivity | constructor].
  - rewrite Hy, Hys. exists (y :: ys). split; [reflexivity |].
    constructor; assumption.
Qed.

Lemma requestEntry_valid (bid : value) :
  PerRequest.isBidRequestValid bid = Ok true ->
  Aggregate.requestEntry bid = Ok (requestOf bid).
Proof.
  intros H. destruct (valid_bid_inv bid H) as [Hn [ps [Hps Hsid]]].
  unfold Aggregate.requestEntry, requestOf.
  rewrite !(get_not_nullish bid _ Hn). cbn [rbind].
  unfold getBidIdParameter. rewrite Hps, Hsid. reflexivity.
Qed.

(** C9. For a bid request without user id, the identity field is absent,
    and the query string still ends in [usr=] with an empty value: [eids] is
    an array, an array is truthy even when empty, and its string form is
    empty. Here the bid has no transaction id and no [native] parameter
    either, and those two fields are left out. *)
Theorem usr_field_emitted_empty :
  PerRequest.buildRequests samplePage
    [VObj [("bidId", VStr (lit "2b84475b5b636e")); ("params", VObj [("sid", VStr (lit "123456"))])]]
    sampleBidderRequest =
  Ok [VObj [("method", VStr (lit "GET"));
            ("url", VStr PerRequest.ENDPOINT);
            ("data", VStr (lit "bid=2b84475b5b636e&ver=%24prebid.version%24&sid=123456&url=https%3A%2F%2Fhoge.com&cur=JPY&dnt=0&usr=&"))]].
Proof.
  vm_compute. reflexivity.
Qed.

(** *** Native responses without a link *)

Lemma get_cases (o : value) (k : string) :
  get o k = if nullish o then Throw TypeError else Ok (prop o k).
Proof.
  destruct o; reflexivity.
Qed.

Lemma nativeAsset_throws_TypeError (native : list (string * value)) (asset : value) (e : error) :
  PerRequest.nativeAsset native asset = Throw e -> e = TypeError.
Proof.
  unfold PerRequest.nativeAsset. rewrite !get_cases.
  repeat
    (match goal with
     | |- context [if nullish ?x then _ else _] => destruct (nullish x)
     | |- context [if strict_eq_num ?x ?n then _ else _] => destruct (strict_eq_num x n)
     end; cbn [rbind]; rewrite ?get_cases);
    intros H; congruence.
Qed.

Lemma rfold_nativeAsset_throws_TypeError (l : list value) :
  forall (native : list (string * value)) (e : error),
    rfold PerRequest.nativeAsset l native = Throw e -> e = TypeError.
Proof.
  induction l as [| asset l IH]; intros native e H.
  - discriminate H.
  - cbn [rfold] in H.
    destruct (PerRequest.nativeAsset native asset) as [native' |] eqn:Hasset.
    + exact (IH native' e H).
    + injection H as <-. exact (nativeAsset_throws_TypeError native asset _ Hasset).
Qed.

Lemma getNativeAd_without_link (resNative : value) :
  nullish resNative = false ->
  nullish (prop resNative "link") = true ->
  PerRequest.getNativeAd resNative =
  if emptyAssets resNative then Ok (VObj []) else Throw TypeError.
Proof.
  intros Hn Hlink. unfold PerRequest.getNativeAd, emptyAssets.
  rewrite (get_not_nullish resNative "assets" Hn). cbn [rbind].
  rewrite get_cases.
  destruct (nullish (prop resNative "assets")); [reflexivity |].
  cbn [rbind negb andb].
  destruct (truthy (prop (prop resNative "assets") "length")); [| reflexivity].
  cbn [negb].
  destruct (forEach (prop resNative "assets")) as [l | e] eqn:Hl.
  - cbn [rbind].
    destruct (rfold PerRequest.nativeAsset l []) as [native | e] eqn:Hfold.
    + cbn [rbind]. rewrite (get_not_nullish resNative "link" Hn). cbn [rbind].
      rewrite get_cases, Hlink. reflexivity.
    + cbn [rbind]. rewrite (rfold_nativeAsset_throws_TypeError l [] e Hfold). reflexivity.
  - cbn [rbind]. destruct (prop resNative "assets"); try discriminate Hl;
      cbn [forEach] in Hl; congruence.
Qed.

(** C10, as amended. For a response classified native whose native object
    has no link (none, or [null]), [interpretResponse] throws a [TypeError]
    and returns no bid, unless the asset list has a falsy [length]: then
    [getNativeAd] returns the empty bundle before it reads the link, and
    the bid is returned with that bundle. Nothing is logged and the
    response is left as it was. *)
Theorem native_without_link (w : world) (props : list (string * value)) :
  has_body w props ->
  PerRequest.isNative (VObj props) = Ok true ->
  nullish (prop (prop (VObj props) "native") "link") = true ->
  PerRequest.interpretResponse w =
  if emptyAssets (prop (VObj props) "native")
  then (Ok [perRequestNativeBid (VObj props) (VObj [])], w)
  else (Throw TypeError, w).
Proof.
  intros Hw Hnat Hlink.
  assert (Hne : isEmpty (VObj props) = false).
  { destruct props; [discriminate Hnat | reflexivity]. }
  assert (Hn : nullish (prop (VObj props) "native") = false).
  { unfold PerRequest.isNative in Hnat. cbn [get rbind] in Hnat.
    destruct (prop (VObj props) "native"); try reflexivity; discriminate Hnat. }
  unfold PerRequest.interpretResponse.
  unfold bind at 1. unfold lift at 1. rewrite (has_body_get w props Hw), Hne.
  unfold bind, lift, ret. cbn [get]. rewrite Hnat.
  cbn [set update String.eqb Ascii.eqb Bool.eqb].
  rewrite (getNativeAd_without_link _ Hn Hlink).
  destruct (emptyAssets (prop (VObj props) "native")); reflexivity.
Qed.

Lemma native_without_link_witness :
  let native := VObj [("length", VNum 1);
                      ("assets", VArr [VObj [("id", VNum 0);
                                             ("title", VObj [("text", VStr (lit "T"))])]])] in
  PerRequest.interpretResponse (nativeWorld native) = (Throw TypeError, nativeWorld native).
Proof.
  intro native.
  apply (native_without_link (nativeWorld native)
           [("bid", VStr (lit "2b84475b5b636e")); ("price", VNum 20); ("native", native)]).
  - eexists. split; reflexivity.
  - reflexivity.
  - reflexivity.
Defined.

(** C10, as stated, fails: this response is classified native and its
    native object has no link, and [interpretResponse] returns a bid. *)
Lemma native_without_link_returns_bid :
  let native := VObj [("length", VNum 1); ("assets", VArr [])] in
  let res := prop (response (nativeWorld native)) "body" in
  PerRequest.isNative res = Ok true /\
  lookup "link" [("length", VNum 1); ("assets", VArr [])] = None /\
  PerRequest.interpretResponse (nativeWorld native) =
    (Ok [perRequestNativeBid res (VObj [])], nativeWorld native).
Proof.
  cbv zeta. repeat split.
Qed.

(** *** Further properties *)

Lemma bidOfRow_nullish (res row : value) (w : world) :
  nullish row = true -> Aggregate.bidOfRow res row w = (Throw TypeError, w).
Proof.
  intros H. unfold Aggregate.bidOfRow, bind, lift. rewrite get_cases, H. reflexivity.
Qed.

Lemma collect_bidOfRow_rows (res : value) (rows : list value) :
  nullish res = false ->
  forall w : world,
    collect (Aggregate.bidOfRow res) rows w =
    (fst (aggregateRows res rows), logged w (snd (aggregateRows res rows))).
Proof.
  intros Hres. induction rows as [| row rows IH]; intros w.
  - cbn [collect aggregateRows fst snd]. rewrite logged_nil. reflexivity.
  - cbn [collect aggregateRows]. unfold bind at 1.
    destruct (nullish row) eqn:Hrow.
    + rewrite (bidOfRow_nullish res row w Hrow). cbn [fst snd].
      rewrite logged_nil. reflexivity.
    + rewrite (bidOfRow_spec res row w Hres Hrow). cbn [fst snd].
      unfold bind at 1. rewrite IH, logged_logged.
      destruct (fst (aggregateRows res rows)); reflexivity.
Qed.

Lemma aggregate_interpretResponse_outcome (w : world) :
  Aggregate.interpretResponse w =
  (fst (aggregateOutcome (response w)), logged w (snd (aggregateOutcome (response w)))).
Proof.
  unfold Aggregate.interpretResponse, aggregateOutcome.
  unfold bind at 1. unfold lift at 1.
  destruct (get (response w) "body") as [res | e].
  - destruct (isEmpty res) eqn:Hne.
    + cbn [fst snd]. rewrite logged_nil. reflexivity.
    + assert (Hres : nullish res = false) by (destruct res; try reflexivity; discriminate).
      unfold bind at 1. unfold lift at 1. rewrite (get_not_nullish res "bids" Hres).
      apply collect_bidOfRow_rows. exact Hres.
  - cbn [fst snd]. rewrite logged_nil. reflexivity.
Qed.

(** The aggregate variant leaves the response as it was, and a second call
    on it returns what the first returned. *)
Theorem aggregate_interpretResponse_repeatable (w : world) :
  response (snd (Aggregate.interpretResponse w)) = response w /\
  fst (Aggregate.interpretResponse (snd (Aggregate.interpretResponse w))) =
  fst (Aggregate.interpretResponse w).
Proof.
  rewrite (aggregate_interpretResponse_outcome w). cbn [fst snd].
  split; [reflexivity |].
  rewrite aggregate_interpretResponse_outcome. reflexivity.
Qed.

(** With pixel syncing disabled [getUserSyncs] returns the empty list,
    whatever the responses carry. *)
Theorem getUserSyncs_pixel_disabled (syncOptions : value) (serverResponses : list value) :
  nullish syncOptions = false ->
  truthy (prop syncOptions "pixelEnabled") = false ->
  PerRequest.getUserSyncs syncOptions serverResponses = Ok [] /\
  Aggregate.getUserSyncs syncOptions serverResponses = Ok [].
Proof.
  intros Hopt Hoff.
  assert (Hall : forall res,
             PerRequest.userSyncsOf syncOptions res = Ok [] /\
             Aggregate.userSyncsOf syncOptions res = Ok []).
  { intros res. pose proof (userSyncsOf_spec syncOptions res Hopt (or_introl Hoff)) as H.
    cbv zeta in H. rewrite Hoff in H. exact H. }
  assert (Hnil : forall l : list value, List.concat (map (fun _ : value => @nil value) l) = []).
  { induction l as [| x l IH]; [reflexivity | exact IH]. }
  unfold PerRequest.getUserSyncs, Aggregate.getUserSyncs.
  destruct serverResponses as [| r l]; [split; reflexivity |].
  split.
  - rewrite (rmap_ok _ (fun _ => [])); [cbn [rbind]; rewrite Hnil; reflexivity |].
    apply Forall_forall. intros res _. apply Hall.
  - rewrite (rmap_ok _ (fun _ => [])); [cbn [rbind]; rewrite Hnil; reflexivity |].
    apply Forall_forall. intros res _. apply Hall.
Qed.

Lemma getUserSyncs_pixel_disabled_witness :
  PerRequest.getUserSyncs (VObj [("pixelEnabled", VBool false)])
    [responseWithSyncs ["https://s1"]; responseWithoutSyncs] = Ok [] /\
  Aggregate.getUserSyncs (VObj [("pixelEnabled", VBool false)])
    [responseWithSyncs ["https://s1"]; responseWithoutSyncs] = Ok [].
Proof.
  apply (getUserSyncs_pixel_disabled (VObj [("pixelEnabled", VBool false)])
           [responseWithSyncs ["https://s1"]; responseWithoutSyncs]); reflexivity.
Defined.

(** With no currency configured and no override in the bidder request,
    the resolved currency is [JPY]. *)
Theorem getCurrencyType_default (env : platform) (bidderRequest : value) :
  truthy (adServerCurrency env) = false ->
  truthy (deepAccess bidderRequest ["ortb2"; "ext"; "prebid"; "adServerCurrency"]) = false ->
  PerRequest.getCurrencyType env = VStr (lit "JPY") /\
  Aggregate.getCurrencyType env bidderRequest = VStr (lit "JPY").
Proof.
  intros Hcfg Hover.
  unfold PerRequest.getCurrencyType, Aggregate.getCurrencyType,
    getCurrencyFromBidderRequest, or_else.
  rewrite Hcfg, Hover, Hcfg. split; reflexivity.
Qed.

Lemma getCurrencyType_default_witness :
  PerRequest.getCurrencyType samplePage = VStr (lit "JPY") /\
  Aggregate.getCurrencyType samplePage sampleBidderRequest = VStr (lit "JPY").
Proof.
  apply (getCurrencyType_default samplePage sampleBidderRequest); reflexivity.
Defined.

(** The asset slots of [getNativeAd]: ids 0 to 4 set the title, the body,
    the sponsor, the icon and the main image of the bundle under
    construction; an asset with any other id leaves it as it is. *)
Theorem nativeAsset_slots (native : list (string * value)) (asset : value) (id : value) :
  get asset "id" = Ok id ->
  (id = VNum 0 ->
   forall text, get (prop asset "title") "text" = Ok text ->
     PerRequest.nativeAsset native asset = Ok (update "title" text native)) /\
  (id = VNum 1 ->
   forall v, get (prop asset "data") "value" = Ok v ->
     PerRequest.nativeAsset native asset = Ok (update "body" v native)) /\
  (id = VNum 2 ->
   forall v, get (prop asset "data") "value" = Ok v ->
     PerRequest.nativeAsset native asset = Ok (update "sponsoredBy" v native)) /\
  (id = VNum 3 ->
   nullish (prop asset "img") = false ->
     PerRequest.nativeAsset native asset =
     Ok (update "icon" (VObj [("url", prop (prop asset "img") "url");
                              ("width", prop (prop asset "img") "w");
                              ("height", prop (prop asset "img") "h")]) native)) /\
  (id = VNum 4 ->
   nullish (prop asset "img") = false ->
     PerRequest.nativeAsset native asset =
     Ok (update "image" (VObj [("url", prop (prop asset "img") "url");
                               ("width", prop (prop asset "img") "w");
                               ("height", prop (prop asset "img") "h")]) native)) /\
  (strict_eq_num id 0 || strict_eq_num id 1 || strict_eq_num id 2 ||
   strict_eq_num id 3 || strict_eq_num id 4 = false ->
     PerRequest.nativeAsset native asset = Ok native).
Proof.
  intros Hid.
  assert (Hn : nullish asset = false).
  { destruct asset; try reflexivity; discriminate Hid. }
  unfold PerRequest.nativeAsset. rewrite Hid. cbn [rbind].
  rewrite !(get_not_nullish asset _ Hn). cbn [rbind].
  repeat split.
  - intros -> text Ht. cbn [strict_eq_num Z.eqb]. rewrite Ht. reflexivity.
  - intros -> v Hv. cbn [strict_eq_num Z.eqb]. rewrite Hv. reflexivity.
  - intros -> v Hv. cbn [strict_eq_num Z.eqb Pos.eqb]. rewrite Hv. reflexivity.
  - intros -> Himg. cbn [strict_eq_num Z.eqb Pos.eqb].
    rewrite !(get_not_nullish _ _ Himg). reflexivity.
  - intros -> Himg. cbn [strict_eq_num Z.eqb Pos.eqb].
    rewrite !(get_not_nullish _ _ Himg). reflexivity.
  - intros H. repeat (apply orb_false_elim in H; destruct H as [H ?]).
    repeat match goal with E : strict_eq_num id _ = false |- _ => rewrite E; clear E end.
    reflexivity.
Qed.

Lemma nativeAsset_slots_witness :
  PerRequest.nativeAsset []
    (VObj [("id", VNum 0); ("title", VObj [("text", VStr (lit "T"))])]) =
    Ok (update "title" (VStr (lit "T")) []) /\
  PerRequest.nativeAsset [("title", VStr (lit "T"))] (VObj [("id", VNum 9)]) =
    Ok [("title", VStr (lit "T"))].
Proof.
  split.
  - destruct (nativeAsset_slots []
                (VObj [("id", VNum 0); ("title", VObj [("text", VStr (lit "T"))])])
                (VNum 0) eq_refl) as [Htitle _].
    apply (Htitle eq_refl). reflexivity.
  - destruct (nativeAsset_slots [("title", VStr (lit "T"))] (VObj [("id", VNum 9)])
                (VNum 9) eq_refl) as [_ [_ [_ [_ [_ Hother]]]]].
    apply Hother. reflexivity.
Defined.

(** *** The per-request variant on every world *)

Lemma update_update (k : string) (v v' : value) (ps : list (string * value)) :
  update k v (update k v' ps) = update k v ps.
Proof.
  induction ps as [| [k' u] ps IH]; simpl.
  - rewrite String.eqb_refl. reflexivity.
  - destruct (String.eqb k k') eqn:E; simpl.
    + rewrite String.eqb_refl. reflexivity.
    + rewrite E, IH. reflexivity.
Qed.

Lemma lookup_update_other (k k' : string) (v : value) (ps : list (string * value)) :
  String.eqb k' k = false -> lookup k' (update k v ps) = lookup k' ps.
Proof.
  intros Hk. induction ps as [| [k0 u] ps IH]; simpl.
  - rewrite Hk. reflexivity.
  - destruct (String.eqb k k0) eqn:E; simpl.
    + apply String.eqb_eq in E. subst k0. rewrite Hk. reflexivity.
    + destruct (String.eqb k' k0); [reflexivity | exact IH].
Qed.

Lemma has_body_of_get (w : world) (props : list (string * value)) :
  get (response w) "body" = Ok (VObj props) -> has_body w props.
Proof.
  intros H. destruct (response w) as [| | b | z | s | l | rprops] eqn:Hr;
    try discriminate H.
  exists rprops. split; [exact Hr |].
  cbn [get prop] in H. destruct (lookup "body" rprops) as [v |]; [| discriminate H].
  injection H as ->. reflexivity.
Qed.

Lemma assignAd_has_body (w : world) (props : list (string * value)) (ad : value) :
  has_body w props ->
  has_body {| response := assignAd (response w) ad; console := console w |}
           (update "ad" ad props).
Proof.
  intros [rprops [Hr Hb]]. unfold assignAd. rewrite Hr, Hb.
  exists (update "body" (VObj (update "ad" ad props)) rprops).
  split; [reflexivity | apply lookup_update_same].
Qed.

Lemma assignAd_assignAd (r ad ad' : value) :
  assignAd (assignAd r ad') ad = assignAd r ad.
Proof.
  unfold assignAd. destruct r as [| | b | z | s | l | rprops]; try reflexivity.
  destruct (lookup "body" rprops) as [[| | b | z | s | l | props] |] eqn:Hb;
    try (rewrite Hb; reflexivity).
  rewrite lookup_update_same, update_update, update_update. reflexivity.
Qed.

Lemma res_set_ad (w : world) (props : list (string * value)) (ad : value) :
  has_body w props ->
  PerRequest.res_set "ad" ad w =
  (Ok tt, {| response := assignAd (response w) ad; console := console w |}).
Proof.
  intros H. unfold PerRequest.res_set. rewrite (has_body_get w props H).
  destruct H as [rprops [Hr Hb]]. unfold assignAd. rewrite Hr, Hb. reflexivity.
Qed.

Lemma appendTrackers_not_first (ad : value) (imps : list value) :
  firstAppends imps = false -> fst (appendTrackers ad imps) = ad.
Proof.
  destruct imps as [| t r]; [reflexivity |]. cbn [firstAppends appendTrackers].
  destruct (createTrackPixelHtml t); [discriminate | reflexivity].
Qed.

(** The loop of [getBannerAd], with the world it leaves. *)
Lemma per_request_loop_world (imps : list value) :
  forall (w : world) (props : list (string * value)),
    has_body w props ->
    for_each appendTracker imps w =
    (match snd (appendTrackers (prop (VObj props) "ad") imps) with
     | None => Ok tt
     | Some e => Throw e
     end,
     {| response := if firstAppends imps
                    then assignAd (response w) (fst (appendTrackers (prop (VObj props) "ad") imps))
                    else response w;
        console := console w |}).
Proof.
  induction imps as [| t imps IH]; intros w props Hw.
  - destruct w; reflexivity.
  - cbn [for_each appendTrackers firstAppends]. unfold bind at 1. unfold appendTracker at 1.
    unfold bind at 1. unfold lift at 1.
    destruct (createTrackPixelHtml t) as [tracker | e]; [| destruct w; reflexivity].
    unfold bind at 1. rewrite (res_get_has_body w props "ad" Hw).
    rewrite (res_set_ad w props _ Hw).
    pose proof (assignAd_has_body w props (plus_string (prop (VObj props) "ad") tracker) Hw)
      as Hw1.
    rewrite (IH _ _ Hw1). cbn [response console].
    assert (Hinit : prop (VObj (update "ad" (plus_string (prop (VObj props) "ad") tracker) props)) "ad"
                    = plus_string (prop (VObj props) "ad") tracker).
    { cbn [prop]. rewrite lookup_update_same. reflexivity. }
    rewrite Hinit, assignAd_assignAd.
    destruct (firstAppends imps) eqn:Hf; [reflexivity |].
    rewrite (appendTrackers_not_first _ imps Hf). reflexivity.
Qed.

Lemma forEach_imps_object (res : value) (l : list value) :
  forEach (prop res "imps") = Ok l -> exists props, res = VObj props.
Proof.
  destruct res as [| | b | z | s | a | props]; try discriminate.
  intros _. exists props. reflexivity.
Qed.

Lemma getBannerAd_outcome (w : world) (res : value) :
  get (response w) "body" = Ok res ->
  nullish res = false ->
  PerRequest.getBannerAd w =
  (Ok (fst (perRequestTrackers res)),
   {| response := if perRequestAssigns res
                  then assignAd (response w) (fst (perRequestTrackers res))
                  else response w;
      console := console w ++ trackerLog (snd (perRequestTrackers res)) |}).
Proof.
  intros Hbody Hres.
  unfold PerRequest.getBannerAd, perRequestTrackers, perRequestAssigns.
  unfold bind at 1. unfold try_catch. unfold bind at 1.
  unfold PerRequest.res_get at 1. rewrite Hbody. cbn [rbind].
  rewrite (get_not_nullish res "imps" Hres).
  unfold bind at 1. unfold lift at 1.
  destruct (forEach (prop res "imps")) as [l | e] eqn:Hl.
  - destruct (forEach_imps_object res l Hl) as [props ->].
    pose proof (has_body_of_get w props Hbody) as Hw.
    change (for_each _ l w) with (for_each appendTracker l w).
    rewrite (per_request_loop_world l w props Hw).
    pose proof (assignAd_has_body w props (fst (appendTrackers (prop (VObj props) "ad") l)) Hw)
      as Hw1.
    assert (Had : forall c,
               PerRequest.res_get "ad"
                 {| response := if firstAppends l
                                then assignAd (response w)
                                       (fst (appendTrackers (prop (VObj props) "ad") l))
                                else response w;
                    console := c |} =
               (Ok (fst (appendTrackers (prop (VObj props) "ad") l)),
                {| response := if firstAppends l
                               then assignAd (response w)
                                      (fst (appendTrackers (prop (VObj props) "ad") l))
                               else response w;
                   console := c |})).
    { intros c. destruct (firstAppends l) eqn:Hf.
      - rewrite (res_get_has_body _ (update "ad" (fst (appendTrackers (prop (VObj props) "ad") l)) props)).
        + cbn [prop]. rewrite lookup_update_same. reflexivity.
        + destruct Hw1 as [rp [Hr Hb]]. exists rp. split; assumption.
      - rewrite (res_get_has_body _ props).
        + rewrite (appendTrackers_not_first _ l Hf). reflexivity.
        + destruct Hw as [rp [Hr Hb]]. exists rp. split; assumption. }
    destruct (snd (appendTrackers (prop (VObj props) "ad") l)) as [e |].
    + unfold logError. cbn [response console trackerLog]. apply Had.
    + cbn [trackerLog]. rewrite app_nil_r. apply Had.
  - unfold logError. cbn [response console fst snd trackerLog].
    unfold PerRequest.res_get. cbn [response]. rewrite Hbody. cbn [rbind].
    rewrite (get_not_nullish res "ad" Hres). reflexivity.
Qed.

Lemma isEmpty_false_not_nullish (res : value) :
  isEmpty res = false -> nullish res = false.
Proof.
  destruct res; try reflexivity; discriminate.
Qed.

(** The per-request [interpretResponse] on every world. *)
Lemma per_request_interpretResponse_outcome (w : world) :
  PerRequest.interpretResponse w = perRequestOutcome w.
Proof.
  unfold PerRequest.interpretResponse, perRequestOutcome.
  unfold bind at 1. unfold lift at 1.
  destruct (get (response w) "body") as [res | e] eqn:Hbody; [| reflexivity].
  destruct (isEmpty res) eqn:Hne; [reflexivity |].
  pose proof (isEmpty_false_not_nullish res Hne) as Hres.
  unfold bind, lift, ret. rewrite !(get_not_nullish res _ Hres).
  destruct (PerRequest.isNative res) as [[|] | e]; [| | reflexivity].
  - cbn [set update String.eqb Ascii.eqb Bool.eqb].
    destruct (PerRequest.getNativeAd (prop res "native")); reflexivity.
  - cbn [set update String.eqb Ascii.eqb Bool.eqb].
    rewrite (getBannerAd_outcome w res Hbody Hres). reflexivity.
Qed.

Lemma assignAd_top (r ad : value) (k : string) :
  k <> "body" -> prop (assignAd r ad) k = prop r k.
Proof.
  intros Hk. apply String.eqb_neq in Hk.
  unfold assignAd. destruct r as [| | b | z | s | l | rprops]; try reflexivity.
  destruct (lookup "body" rprops) as [[| | b | z | s | l | props] |]; try reflexivity.
  cbn [prop]. rewrite (lookup_update_other "body" k _ rprops Hk). reflexivity.
Qed.

Lemma assignAd_body (r ad : value) (k : string) :
  k <> "ad" -> prop (prop (assignAd r ad) "body") k = prop (prop r "body") k.
Proof.
  intros Hk. apply String.eqb_neq in Hk.
  unfold assignAd. destruct r as [| | b | z | s | l | rprops]; try reflexivity.
  destruct (lookup "body" rprops) as [[| | b | z | s | l | props] |] eqn:Hb; try reflexivity.
  cbn [prop]. rewrite lookup_update_same, Hb. cbn [prop].
  rewrite (lookup_update_other "ad" k _ props Hk). reflexivity.
Qed.

(** The per-request [interpretResponse] touches one thing in the response
    it is given, the [ad] of the body: every other property of the body and
    every other property of the response is as it was; and it logs at most
    one message. *)
Theorem per_request_interpretResponse_frame (w : world) :
  (forall k, k <> "body" ->
     prop (response (snd (PerRequest.interpretResponse w))) k = prop (response w) k) /\
  (forall k, k <> "ad" ->
     prop (prop (response (snd (PerRequest.interpretResponse w))) "body") k =
     prop (prop (response w) "body") k) /\
  (exists entries,
     console (snd (PerRequest.interpretResponse w)) = console w ++ entries /\
     (List.length entries <= 1)%nat).
Proof.
  rewrite per_request_interpretResponse_outcome. unfold perRequestOutcome.
  assert (Hsame : (forall k : string, k <> "body" -> prop (response w) k = prop (response w) k) /\
                  (forall k : string, k <> "ad" ->
                     prop (prop (response w) "body") k = prop (prop (response w) "body") k) /\
                  (exists entries, console w = console w ++ entries /\
                                   (List.length entries <= 1)%nat)).
  { split; [reflexivity |]. split; [reflexivity |].
    exists []. split; [symmetry; apply app_nil_r | simpl; lia]. }
  destruct (get (response w) "body") as [res | e]; [| exact Hsame].
  destruct (isEmpty res); [exact Hsame |].
  destruct (PerRequest.isNative res) as [[|] | e]; [| | exact Hsame].
  - destruct (PerRequest.getNativeAd (prop res "native")); exact Hsame.
  - cbn [snd response console].
    split; [| split].
    + intros k Hk. destruct (perRequestAssigns res); [apply assignAd_top; exact Hk | reflexivity].
    + intros k Hk. destruct (perRequestAssigns res); [apply assignAd_body; exact Hk | reflexivity].
    + eexists. split; [reflexivity |].
      destruct (snd (perRequestTrackers res)); simpl; lia.
Qed.

Lemma aggregateRows_bids (res : value) (rows : list value) :
  forall bids,
    fst (aggregateRows res rows) = Ok bids ->
    bids = map (fun row => aggregateBid res row (markupOf row)) rows.
Proof.
  induction rows as [| row rows IH]; intros bids H.
  - cbn in H. injection H as <-. reflexivity.
  - cbn [aggregateRows] in H. destruct (nullish row); [discriminate H |].
    cbn [fst] in H. destruct (fst (aggregateRows res rows)) as [bs |]; [| discriminate H].
    injection H as <-. cbn [map]. rewrite (IH bs eq_refl). reflexivity.
Qed.

Lemma empty_body_has_no_rows (res : value) :
  isEmpty res = true -> _each (prop res "bids") = [].
Proof.
  destruct res as [| | b | z | s | l | ps]; try reflexivity.
  destruct ps; [reflexivity | discriminate].
Qed.

(** Whenever the aggregate [interpretResponse] returns, it returns one bid
    per row of [bids], in the order of the rows, and each bid takes its
    request id, price, size, creative id and advertiser domains from its own
    row. *)
Theorem aggregate_bids_follow_rows (w : world) (bids : list value) :
  fst (Aggregate.interpretResponse w) = Ok bids ->
  Forall2 (fun row bid =>
             prop bid "requestId" = prop row "bid" /\
             prop bid "cpm" = prop row "price" /\
             prop bid "width" = prop row "w" /\
             prop bid "height" = prop row "h" /\
             prop bid "creativeId" = prop row "creativeId" /\
             prop bid "adomains" = prop row "adomains")
          (_each (prop (prop (response w) "body") "bids")) bids.
Proof.
  rewrite aggregate_interpretResponse_outcome. cbn [fst]. unfold aggregateOutcome.
  rewrite get_cases. destruct (nullish (response w)) eqn:Hn; [discriminate |].
  destruct (isEmpty (prop (response w) "body")) eqn:He.
  - intros H. injection H as <-. rewrite (empty_body_has_no_rows _ He). constructor.
  - intros H. rewrite (aggregateRows_bids _ _ bids H). clear H.
    induction (_each (prop (prop (response w) "body") "bids")) as [| row rows IH].
    + constructor.
    + cbn [map]. constructor; [| exact IH]. repeat split.
Qed.

Lemma aggregate_bids_follow_rows_witness :
  Forall2 (fun row bid =>
             prop bid "requestId" = prop row "bid" /\
             prop bid "cpm" = prop row "price" /\
             prop bid "width" = prop row "w" /\
             prop bid "height" = prop row "h" /\
             prop bid "creativeId" = prop row "creativeId" /\
             prop bid "adomains" = prop row "adomains")
          (_each (prop (prop (response brokenRowsWorld) "body") "bids"))
          [aggregateBid (prop (response brokenRowsWorld) "body") (VObj bannerRow)
             (markupOf (VObj bannerRow));
           aggregateBid (prop (response brokenRowsWorld) "body") (VObj brokenRow)
             (markupOf (VObj brokenRow))].
Proof.
  apply (aggregate_bids_follow_rows brokenRowsWorld). reflexivity.
Defined.

(** Every bid either variant returns is net revenue, and has a truthy
    time-to-live: the [ttl] of the response body when that is truthy, else
    300. The per-request variant returns at most one bid. *)
Theorem bids_net_revenue_and_ttl (w : world) (bids : list value) :
  (fst (PerRequest.interpretResponse w) = Ok bids ->
   (List.length bids <= 1)%nat /\
   Forall (fun bid =>
             prop bid "netRevenue" = VBool true /\
             prop bid "ttl" = or_else (prop (prop (response w) "body") "ttl") (VNum 300) /\
             truthy (prop bid "ttl") = true) bids) /\
  (fst (Aggregate.interpretResponse w) = Ok bids ->
   Forall (fun bid =>
             prop bid "netRevenue" = VBool true /\
             prop bid "ttl" = or_else (prop (prop (response w) "body") "ttl") (VNum 300) /\
             truthy (prop bid "ttl") = true) bids).
Proof.
  assert (Httl : forall v, truthy (or_else v (VNum 300)) = true).
  { intros v. unfold or_else. destruct (truthy v) eqn:E; [exact E | reflexivity]. }
  split.
  - rewrite per_request_interpretResponse_outcome. unfold perRequestOutcome.
    rewrite get_cases. destruct (nullish (response w)); [discriminate |].
    destruct (isEmpty (prop (response w) "body")).
    { intros H. injection H as <-. split; [simpl; lia | constructor]. }
    destruct (PerRequest.isNative (prop (response w) "body")) as [[|] | e];
      [| | discriminate].
    + destruct (PerRequest.getNativeAd _); [| discriminate].
      intros H. injection H as <-. split; [simpl; lia |].
      constructor; [| constructor]. repeat split. apply Httl.
    + intros H. injection H as <-. split; [simpl; lia |].
      constructor; [| constructor]. repeat split. apply Httl.
  - rewrite aggregate_interpretResponse_outcome. cbn [fst]. unfold aggregateOutcome.
    rewrite get_cases. destruct (nullish (response w)); [discriminate |].
    destruct (isEmpty (prop (response w) "body")).
    { intros H. injection H as <-. constructor. }
    intros H. rewrite (aggregateRows_bids _ _ bids H).
    apply Forall_forall. intros bid Hin. apply in_map_iff in Hin.
    destruct Hin as [row [<- _]]. repeat split. apply Httl.
Qed.

Lemma bids_net_revenue_and_ttl_witness :
  Forall (fun bid =>
            prop bid "netRevenue" = VBool true /\
            prop bid "ttl" = or_else (prop (prop (response bannerRowsWorld) "body") "ttl") (VNum 300) /\
            truthy (prop bid "ttl") = true)
         [aggregateBid (prop (response bannerRowsWorld) "body") (VObj bannerRow)
            (markupOf (VObj bannerRow))].
Proof.
  apply (proj2 (bids_net_revenue_and_ttl bannerRowsWorld
                  [aggregateBid (prop (response bannerRowsWorld) "body") (VObj bannerRow)
                     (markupOf (VObj bannerRow))])).
  reflexivity.
Defined.

Lemma aggregateRows_nullish (res : value) (rows : list value) (row : value) :
  In row rows -> nullish row = true -> fst (aggregateRows res rows) = Throw TypeError.
Proof.
  intros Hin Hrow. induction rows as [| r rows IH]; [contradiction |].
  cbn [aggregateRows]. destruct (nullish r) eqn:Hr; [reflexivity |].
  destruct Hin as [-> | Hin]; [congruence |].
  cbn [fst]. rewrite (IH Hin). reflexivity.
Qed.

(** One row of [bids] that is [null] makes the aggregate
    [interpretResponse] throw a [TypeError]: the bids of the other rows are
    not returned. *)
Theorem aggregate_null_row_throws (w : world) (res row : value) :
  get (response w) "body" = Ok res ->
  In row (_each (prop res "bids")) ->
  nullish row = true ->
  fst (Aggregate.interpretResponse w) = Throw TypeError.
Proof.
  intros Hbody Hin Hrow.
  rewrite aggregate_interpretResponse_outcome. cbn [fst]. unfold aggregateOutcome.
  rewrite Hbody.
  destruct (isEmpty res) eqn:He.
  - rewrite (empty_body_has_no_rows res He) in Hin. contradiction.
  - exact (aggregateRows_nullish res _ row Hin Hrow).
Qed.

Lemma aggregate_null_row_throws_witness :
  fst (Aggregate.interpretResponse
         (worldOfBody (VObj [("bids", VArr [VObj bannerRow; VNull])]))) = Throw TypeError.
Proof.
  apply (aggregate_null_row_throws
           (worldOfBody (VObj [("bids", VArr [VObj bannerRow; VNull])]))
           (VObj [("bids", VArr [VObj bannerRow; VNull])]) VNull).
  - reflexivity.
  - right. left. reflexivity.
  - reflexivity.
Defined.

Lemma pixel_not_empty (e : jsstring) : pixel e <> [].
Proof.
  unfold pixel. intros H. apply app_eq_nil in H. destruct H as [H _]. discriminate H.
Qed.

Lemma pixels_not_empty (escaped : list jsstring) :
  escaped <> [] -> List.concat (map pixel escaped) <> [].
Proof.
  destruct escaped as [| e r]; [contradiction |]. intros _ H.
  cbn [map List.concat] in H. apply app_eq_nil in H. destruct H as [H _].
  exact (pixel_not_empty e H).
Qed.

(** With at least one tracker URL, the loop ends normally whatever the
    markup it starts from: the markup is read as a string and the snippets
    are appended to it. *)
Lemma appendTrackers_urls_from (urls escaped : list jsstring) (ad : value) :
  urls <> [] ->
  Forall2 (fun u e => u <> [] /\ encodeURI (VStr u) = Ok e) urls escaped ->
  appendTrackers ad (map VStr urls) =
  (VStr (ToString ad ++ List.concat (map pixel escaped)), None).
Proof.
  intros Hne Hall. destruct Hall as [| u e urls escaped [Hu He] Hall]; [contradiction |].
  cbn [map appendTrackers List.concat].
  rewrite (createTrackPixelHtml_url u e Hu He). unfold plus_string.
  rewrite (appendTrackers_urls urls escaped Hall), app_assoc. reflexivity.
Qed.

Lemma firstAppends_urls (urls escaped : list jsstring) :
  urls <> [] ->
  Forall2 (fun u e => u <> [] /\ encodeURI (VStr u) = Ok e) urls escaped ->
  firstAppends (map VStr urls) = true.
Proof.
  intros Hne Hall. destruct Hall as [| u e urls escaped [Hu He] Hall]; [contradiction |].
  cbn [map firstAppends]. rewrite (createTrackPixelHtml_url u e Hu He). reflexivity.
Qed.

(** In the per-request variant, a second call on the response of a banner
    with at least one tracker URL returns the markup with every snippet
    twice: the first call has left its markup in [res.ad], and the second
    appends to that. The two bids differ. *)
Theorem per_request_second_call_doubles
    (w : world) (props : list (string * value)) (ad : jsstring)
    (urls escaped : list jsstring) :
  has_body w props ->
  lookup "native" props = None ->
  lookup "ad" props = Some (VStr ad) ->
  lookup "imps" props = Some (VArr (map VStr urls)) ->
  urls <> [] ->
  Forall2 (fun u e => u <> [] /\ encodeURI (VStr u) = Ok e) urls escaped ->
  exists (bid1 bid2 : value) (w1 w2 : world),
    PerRequest.interpretResponse w = (Ok [bid1], w1) /\
    PerRequest.interpretResponse w1 = (Ok [bid2], w2) /\
    prop bid1 "ad" = VStr (ad ++ List.concat (map pixel escaped)) /\
    prop bid2 "ad" =
      VStr (ad ++ List.concat (map pixel escaped) ++ List.concat (map pixel escaped)) /\
    prop bid1 "ad" <> prop bid2 "ad".
Proof.
  intros Hw Hnat Had Himps Hne Hurls.
  set (P := List.concat (map pixel escaped)).
  assert (HP : P <> []).
  { apply pixels_not_empty. intros ->. inversion Hurls. subst. contradiction. }
  (* the first call *)
  pose proof (per_request_interpretResponse_outcome w) as H1.
  unfold perRequestOutcome in H1.
  rewrite (has_body_get w props Hw) in H1.
  assert (Hne' : isEmpty (VObj props) = false).
  { destruct props; [discriminate Had | reflexivity]. }
  rewrite Hne', (isNative_without_native props Hnat) in H1.
  unfold perRequestTrackers, perRequestAssigns in H1.
  rewrite (prop_lookup props "imps" _ Himps), (prop_lookup props "ad" _ Had) in H1.
  cbn [forEach] in H1.
  rewrite (appendTrackers_urls urls escaped Hurls ad),
    (firstAppends_urls urls escaped Hne Hurls) in H1.
  cbn [fst snd trackerLog] in H1. fold P in H1.
  (* the world it leaves *)
  set (w1 := {| response := assignAd (response w) (VStr (ad ++ P));
                console := console w ++ [] |}) in H1.
  assert (Hw1 : has_body w1 (update "ad" (VStr (ad ++ P)) props)).
  { destruct (assignAd_has_body w props (VStr (ad ++ P)) Hw) as [rp [Hr Hb]].
    exists rp. split; assumption. }
  assert (Hnat1 : lookup "native" (update "ad" (VStr (ad ++ P)) props) = None).
  { rewrite lookup_update_other; [exact Hnat | reflexivity]. }
  assert (Himps1 : prop (VObj (update "ad" (VStr (ad ++ P)) props)) "imps" = VArr (map VStr urls)).
  { cbn [prop]. rewrite lookup_update_other; [rewrite Himps; reflexivity | reflexivity]. }
  (* the second call *)
  destruct (per_request_banner_spec w1 _ (map VStr urls) Hw1
              (isNative_without_native _ Hnat1) Himps1) as [w2 [H2 _]].
  assert (Had1 : prop (VObj (update "ad" (VStr (ad ++ P)) props)) "ad" = VStr (ad ++ P)).
  { cbn [prop]. rewrite lookup_update_same. reflexivity. }
  rewrite Had1, (appendTrackers_urls urls escaped Hurls (ad ++ P)) in H2.
  fold P in H2. cbn [fst] in H2. rewrite <- app_assoc in H2.
  eexists. eexists. exists w1, w2.
  split; [exact H1 |]. split; [exact H2 |].
  split; [reflexivity |]. split; [reflexivity |].
  cbn [perRequestBannerBid prop lookup String.eqb Ascii.eqb Bool.eqb].
  intros Heq. injection Heq as Heq. apply app_inv_head in Heq.
  apply (f_equal (@List.length code_unit)) in Heq. rewrite length_app in Heq.
  destruct P; [apply HP; reflexivity | simpl in Heq; lia].
Qed.

Lemma per_request_second_call_doubles_witness :
  exists (bid1 bid2 : value) (w1 w2 : world),
    PerRequest.interpretResponse bannerWorld = (Ok [bid1], w1) /\
    PerRequest.interpretResponse w1 = (Ok [bid2], w2) /\
    prop bid1 "ad" = VStr (lit "<div>ad</div>" ++ List.concat (map pixel [lit "http://t1"])) /\
    prop bid2 "ad" =
      VStr (lit "<div>ad</div>" ++ List.concat (map pixel [lit "http://t1"]) ++
            List.concat (map pixel [lit "http://t1"])) /\
    prop bid1 "ad" <> prop bid2 "ad".
Proof.
  apply (per_request_second_call_doubles bannerWorld
           (("cur", VStr (lit "JPY")) :: bannerRow) (lit "<div>ad</div>")
           [lit "http://t1"] [lit "http://t1"]).
  - eexists. split; reflexivity.
  - reflexivity.
  - reflexivity.
  - reflexivity.
  - discriminate.
  - constructor; [split; [discriminate | reflexivity] | constructor].
Defined.

(** A row with trackers and no markup gets the markup [undefined] followed
    by the snippets, in both variants: the snippets are appended to the
    missing [ad] as to a string. *)
Theorem missing_markup_reads_undefined
    (props : list (string * value)) (urls escaped : list jsstring) :
  lookup "ad" props = None ->
  lookup "imps" props = Some (VArr (map VStr urls)) ->
  urls <> [] ->
  Forall2 (fun u e => u <> [] /\ encodeURI (VStr u) = Ok e) urls escaped ->
  (forall w : world,
     has_body w props ->
     lookup "native" props = None ->
     exists (bid : value) (w' : world),
       PerRequest.interpretResponse w = (Ok [bid], w') /\
       prop bid "ad" = VStr (lit "undefined" ++ List.concat (map pixel escaped))) /\
  (forall (w : world) (res : value) (rows : list value) (i : nat),
     get (response w) "body" = Ok res ->
     prop res "bids" = VArr rows ->
     Forall (fun r => nullish r = false) rows ->
     nth_error rows i = Some (VObj props) ->
     exists (bids : list value) (w' : world) (bid : value),
       Aggregate.interpretResponse w = (Ok bids, w') /\
       nth_error bids i = Some bid /\
       prop bid "ad" = VStr (lit "undefined" ++ List.concat (map pixel escaped))).
Proof.
  intros Had Himps Hne Hurls.
  assert (Hadp : prop (VObj props) "ad" = VUndefined).
  { cbn [prop]. rewrite Had. reflexivity. }
  pose proof (appendTrackers_urls_from urls escaped VUndefined Hne Hurls) as Hloop.
  cbn [ToString] in Hloop.
  split.
  - intros w Hw Hnat.
    destruct (per_request_banner_spec w props (map VStr urls) Hw
                (isNative_without_native props Hnat) (prop_lookup props "imps" _ Himps))
      as [w' [Hrun _]].
    rewrite Hadp, Hloop in Hrun.
    eexists. exists w'. split; [exact Hrun | reflexivity].
  - intros w res rows i Hbody Hbids Hrows Hrow.
    destruct (aggregate_row_bid w res rows i (VObj props) Hbody Hbids Hrows Hrow)
      as [bids [w' [Hrun [_ [Hnth _]]]]].
    exists bids, w'. eexists. split; [exact Hrun |]. split; [exact Hnth |].
    unfold aggregateBid, markupOf. cbn [prop lookup String.eqb Ascii.eqb Bool.eqb].
    rewrite Had, Himps. cbn [_each]. rewrite Hloop. reflexivity.
Qed.

Lemma missing_markup_reads_undefined_witness :
  (exists (bid : value) (w' : world),
     PerRequest.interpretResponse (worldOfBody (VObj trackersOnlyRow)) = (Ok [bid], w') /\
     prop bid "ad" =
       VStr (lit "undefined" ++ List.concat (map pixel [lit "http://t1"; lit "http://t2"]))) /\
  (exists (bids : list value) (w' : world) (bid : value),
     Aggregate.interpretResponse
       (worldOfBody (VObj [("bids", VArr [VObj trackersOnlyRow])])) = (Ok bids, w') /\
     nth_error bids 0 = Some bid /\
     prop bid "ad" =
       VStr (lit "undefined" ++ List.concat (map pixel [lit "http://t1"; lit "http://t2"]))).
Proof.
  destruct (missing_markup_reads_undefined trackersOnlyRow
              [lit "http://t1"; lit "http://t2"] [lit "http://t1"; lit "http://t2"])
    as [Hget Hpost].
  - reflexivity.
  - reflexivity.
  - discriminate.
  - repeat (constructor; [split; [discriminate | reflexivity] |]). constructor.
  - split.
    + apply Hget; [eexists; split; reflexivity | reflexivity].
    + apply (Hpost _ (VObj [("bids", VArr [VObj trackersOnlyRow])]) [VObj trackersOnlyRow] 0%nat).
      * reflexivity.
      * reflexivity.
      * repeat constructor.
      * reflexivity.
Defined.

(** A banner without tracker list. The per-request variant calls
    [forEach] on the missing list: the [TypeError] is caught and logged on
    every such response, and the bid carries the markup as it came. The
    aggregate variant goes through [_each], which accepts a missing list:
    its bids carry the markup as it came and nothing is logged. Neither
    changes the response. *)
Theorem banner_without_tracker_list :
  (forall (w : world) (props : list (string * value)),
     has_body w props ->
     props <> [] ->
     lookup "native" props = None ->
     lookup "imps" props = None ->
     PerRequest.interpretResponse w =
     (Ok [perRequestBannerBid (VObj props) (prop (VObj props) "ad")],
      logged w [("Error appending tracking pixel", TypeError)])) /\
  (forall (w : world) (res : value) (rows : list value),
     get (response w) "body" = Ok res ->
     prop res "bids" = VArr rows ->
     Forall (fun row => nullish row = false /\ prop row "imps" = VUndefined) rows ->
     Aggregate.interpretResponse w =
     (Ok (map (fun row => aggregateBid res row (prop row "ad")) rows), w)).
Proof.
  split.
  - intros w props Hw Hne Hnat Himps.
    rewrite per_request_interpretResponse_outcome. unfold perRequestOutcome.
    rewrite (has_body_get w props Hw).
    assert (He : isEmpty (VObj props) = false).
    { destruct props; [contradiction | reflexivity]. }
    rewrite He, (isNative_without_native props Hnat).
    unfold perRequestTrackers, perRequestAssigns. cbn [prop]. rewrite Himps.
    reflexivity.
  - intros w res rows Hbody Hbids Hrows.
    assert (He : isEmpty res = false).
    { destruct res as [| | b | z | s | l | ps]; try discriminate Hbids.
      destruct ps; [discriminate Hbids | reflexivity]. }
    rewrite (aggregate_interpretResponse_spec w res Hbody He).
    + rewrite Hbids. cbn [_each].
      assert (Hmap : map (fun row => aggregateBid res row (markupOf row)) rows =
                     map (fun row => aggregateBid res row (prop row "ad")) rows).
      { apply map_ext_in. intros row Hin. rewrite Forall_forall in Hrows.
        destruct (Hrows row Hin) as [_ Hi]. unfold markupOf. rewrite Hi. reflexivity. }
      assert (Hlog : flat_map markupLog rows = []).
      { clear - Hrows. induction Hrows as [| row rows [_ Hi] _ IH]; [reflexivity |].
        cbn [flat_map]. unfold markupLog at 1. rewrite Hi, IH. reflexivity. }
      rewrite Hmap, Hlog, logged_nil. reflexivity.
    + rewrite Hbids. cbn [_each]. eapply Forall_impl; [| exact Hrows].
      intros row [Hn _]. exact Hn.
Qed.

Lemma banner_without_tracker_list_witness :
  PerRequest.interpretResponse (worldOfBody (VObj markupOnlyRow)) =
    (Ok [perRequestBannerBid (VObj markupOnlyRow) (VStr (lit "<div>ad</div>"))],
     logged (worldOfBody (VObj markupOnlyRow)) [("Error appending tracking pixel", TypeError)]) /\
  Aggregate.interpretResponse (worldOfBody (VObj [("bids", VArr [VObj markupOnlyRow])])) =
    (Ok [aggregateBid (VObj [("bids", VArr [VObj markupOnlyRow])]) (VObj markupOnlyRow)
           (VStr (lit "<div>ad</div>"))],
     worldOfBody (VObj [("bids", VArr [VObj markupOnlyRow])])).
Proof.
  destruct banner_without_tracker_list as [Hget Hpost]. split.
  - apply (Hget (worldOfBody (VObj markupOnlyRow)) markupOnlyRow).
    + eexists. split; reflexivity.
    + discriminate.
    + reflexivity.
    + reflexivity.
  - apply (Hpost (worldOfBody (VObj [("bids", VArr [VObj markupOnlyRow])]))
             (VObj [("bids", VArr [VObj markupOnlyRow])]) [VObj markupOnlyRow]).
    + reflexivity.
    + reflexivity.
    + repeat constructor.
Defined.

(** *** The query string *)

Lemma readFields_value (v : jsstring) :
  forall (rest : jsstring) (k cur : jsstring),
    forallb (fun c => negb (c =? 38)%N) v = true ->
    readFields (v ++ rest) (Some k) cur = readFields rest (Some k) (cur ++ v).
Proof.
  induction v as [| c v IH]; intros rest k cur Hv.
  - cbn [app]. rewrite app_nil_r. reflexivity.
  - cbn [forallb] in Hv. apply andb_prop in Hv. destruct Hv as [Hc Hv].
    apply negb_true_iff in Hc. cbn [app readFields]. rewrite Hc.
    destruct (c =? 61)%N; rewrite (IH rest k (cur ++ [c]) Hv), <- app_assoc; reflexivity.
Qed.

Lemma readFields_key (k : jsstring) :
  forall (rest cur : jsstring),
    delimiterFree k = true ->
    readFields (k ++ rest) None cur = readFields rest None (cur ++ k).
Proof.
  induction k as [| c k IH]; intros rest cur Hk.
  - cbn [app]. rewrite app_nil_r. reflexivity.
  - unfold delimiterFree in Hk. cbn [forallb] in Hk. apply andb_prop in Hk.
    destruct Hk as [Hc Hk]. apply negb_true_iff, orb_false_elim in Hc.
    destruct Hc as [Hamp Heq]. cbn [app readFields]. rewrite Hamp, Heq.
    rewrite (IH rest (cur ++ [c]) Hk), <- app_assoc. reflexivity.
Qed.

Lemma delimiterFree_no_amp (v : jsstring) :
  delimiterFree v = true -> forallb (fun c => negb (c =? 38)%N) v = true.
Proof.
  unfold delimiterFree. induction v as [| c v IH]; [reflexivity |].
  cbn [forallb]. intros H. apply andb_prop in H. destruct H as [Hc Hv].
  apply negb_true_iff, orb_false_elim in Hc. destruct Hc as [Hamp _].
  rewrite Hamp, (IH Hv). reflexivity.
Qed.

(** Fields whose keys and values hold no delimiter read back as they were
    written. *)
Lemma readFields_fieldTexts (kvs : list (jsstring * jsstring)) :
  Forall (fun kv => delimiterFree (fst kv) = true /\ delimiterFree (snd kv) = true) kvs ->
  readFields (List.concat (map fieldText kvs)) None [] = kvs.
Proof.
  induction 1 as [| [k v] kvs [Hk Hv] _ IH]; [reflexivity |].
  cbn [map List.concat fst snd] in *. unfold fieldText at 1. cbn [fst snd].
  rewrite <- !app_assoc.
  rewrite (readFields_key k _ [] Hk). cbn [app].
  change (lit "=" ++ v ++ lit "&" ++ List.concat (map fieldText kvs))
    with (61%N :: (v ++ 38%N :: List.concat (map fieldText kvs))).
  cbn [readFields N.eqb Pos.eqb].
  rewrite (readFields_value v _ k [] (delimiterFree_no_amp v Hv)).
  cbn [app readFields N.eqb Pos.eqb]. rewrite IH. reflexivity.
Qed.

Lemma hex_digit_upper_safe (n : N) :
  negb ((hex_digit true n =? 38) || (hex_digit true n =? 61))%N = true.
Proof.
  unfold hex_digit. apply negb_true_iff, orb_false_intro; apply N.eqb_neq;
    destruct (n <? 10)%N eqn:E;
    try (apply N.ltb_lt in E); try (apply N.ltb_ge in E); lia.
Qed.

Lemma escape_delimiterFree (cp : N) : delimiterFree (escape cp) = true.
Proof.
  unfold escape, delimiterFree.
  induction (utf8 cp) as [| b bs IH]; [reflexivity |].
  cbn [map List.concat]. rewrite forallb_app. apply andb_true_intro.
  split; [| exact IH].
  unfold percent. cbn [forallb]. rewrite !hex_digit_upper_safe. reflexivity.
Qed.

Lemma uri_unescaped_safe (c : code_unit) :
  uri_unescaped c = true -> negb ((c =? 38) || (c =? 61))%N = true.
Proof.
  intros H. apply negb_true_iff, orb_false_intro; apply N.eqb_neq; intros ->;
    vm_compute in H; discriminate H.
Qed.

(** What [encodeURIComponent] writes holds no [&] and no [=]. *)
Lemma Encode_delimiterFree (n : nat) :
  forall s e : jsstring,
    (List.length s <= n)%nat ->
    Encode uri_unescaped s = Ok e ->
    delimiterFree e = true.
Proof.
  induction n as [| n IH]; intros s e Hlen He.
  - destruct s; [| simpl in Hlen; lia]. injection He as <-. reflexivity.
  - destruct s as [| c rest]; [injection He as <-; reflexivity |].
    simpl in Hlen. cbn [Encode] in He.
    destruct (uri_unescaped c) eqn:Hu.
    + destruct (Encode uri_unescaped rest) as [r |] eqn:Hr; [| discriminate He].
      injection He as <-. unfold delimiterFree. cbn [forallb].
      rewrite (uri_unescaped_safe c Hu). exact (IH rest r ltac:(lia) Hr).
    + destruct (is_low_surrogate c); [discriminate He |].
      destruct (is_high_surrogate c).
      * destruct rest as [| d rest']; [discriminate He |].
        destruct (is_low_surrogate d); [| discriminate He].
        destruct (Encode uri_unescaped rest') as [r |] eqn:Hr; [| discriminate He].
        injection He as <-. simpl in Hlen.
        unfold delimiterFree. rewrite forallb_app.
        fold (delimiterFree (escape ((c - 55296) * 1024 + (d - 56320) + 65536))).
        rewrite escape_delimiterFree. exact (IH rest' r ltac:(lia) Hr).
      * destruct (Encode uri_unescaped rest) as [r |] eqn:Hr; [| discriminate He].
        injection He as <-. unfold delimiterFree. rewrite forallb_app.
        fold (delimiterFree (escape c)). rewrite escape_delimiterFree.
        exact (IH rest r ltac:(lia) Hr).
Qed.

Lemma emittedField_delimiterFree (key : string) (v : value) :
  delimiterFree (lit key) = true ->
  Forall (fun kv => delimiterFree (fst kv) = true /\ delimiterFree (snd kv) = true)
         (emittedField key v).
Proof.
  intros Hk. unfold emittedField. destruct (truthy v); [| constructor].
  unfold encodeURIComponent.
  destruct (Encode uri_unescaped (ToString v)) as [e |] eqn:He; [| constructor].
  constructor; [| constructor]. split; [exact Hk |].
  exact (Encode_delimiterFree _ _ e (le_n _) He).
Qed.

Lemma tryAppendQueryString_field (q q' : jsstring) (key : string) (v : value) :
  tryAppendQueryString q key v = Ok q' ->
  q' = q ++ List.concat (map fieldText (emittedField key v)).
Proof.
  unfold tryAppendQueryString, emittedField.
  destruct (truthy v).
  - destruct (encodeURIComponent v) as [e |]; [| discriminate].
    cbn [rbind]. intros H. injection H as <-.
    cbn [map List.concat]. unfold fieldText. cbn [fst snd]. rewrite app_nil_r. reflexivity.
  - intros H. injection H as <-. cbn [map List.concat]. rewrite app_nil_r. reflexivity.
Qed.

(** The query string of a request is the text of its fields, one after
    the other. *)
Lemma buildRequest_data (bidderRequest url cur dnt request req : value) :
  PerRequest.buildRequest bidderRequest url cur dnt request = Ok req ->
  req = VObj [("method", VStr (lit "GET"));
              ("url", VStr PerRequest.ENDPOINT);
              ("data", VStr (List.concat (map fieldText
                                            (queryFields bidderRequest url cur dnt request))))].
Proof.
  unfold PerRequest.buildRequest. rewrite !get_cases.
  destruct (nullish request); [discriminate |]. cbn [rbind].
  fold (eidsOf bidderRequest).
  repeat
    match goal with
    | |- context [tryAppendQueryString ?q ?k ?v] =>
        let q' := fresh "q" in
        let Hq := fresh "Hq" in
        destruct (tryAppendQueryString q k v) as [q' |] eqn:Hq; [| discriminate];
        apply tryAppendQueryString_field in Hq; cbn [rbind]
    end.
  intros H. injection H as <-. subst.
  unfold queryFields. rewrite !map_app, !concat_app, <- !app_assoc. reflexivity.
Qed.

Lemma queryFields_delimiterFree (bidderRequest url cur dnt request : value) :
  Forall (fun kv => delimiterFree (fst kv) = true /\ delimiterFree (snd kv) = true)
         (queryFields bidderRequest url cur dnt request).
Proof.
  unfold queryFields.
  repeat (apply Forall_app; split);
    apply emittedField_delimiterFree; reflexivity.
Qed.

(** The query string of every GET request reads back, field by field, as
    the fields whose values are truthy, in the order tid, bid, ver, sid,
    url, cur, dnt, native, usr, each value as [encodeURIComponent] writes
    it: no value adds a field or cuts one short. *)
Theorem query_string_reads_back (bidderRequest url cur dnt request req : value) :
  PerRequest.buildRequest bidderRequest url cur dnt request = Ok req ->
  exists data : jsstring,
    prop req "data" = VStr data /\
    readFields data None [] = queryFields bidderRequest url cur dnt request.
Proof.
  intros H. apply buildRequest_data in H. subst req.
  eexists. split; [reflexivity |].
  apply readFields_fieldTexts, queryFields_delimiterFree.
Qed.

Lemma query_string_reads_back_witness :
  exists data : jsstring,
    prop (VObj [("method", VStr (lit "GET"));
                ("url", VStr PerRequest.ENDPOINT);
                ("data", VStr (lit "tid=791e9d84-af92-4903-94da-24c7426d9d0c&bid=2b84475b5b636e&ver=%24prebid.version%24&sid=123456&url=https%3A%2F%2Fhoge.com%2F%3Fa%3D1%26b%3D2&cur=JPY&dnt=1&usr=%5Bobject%20Object%5D&"))])
         "data" = VStr data /\
    readFields data None [] =
    queryFields bidderRequestWithEnvelope (VStr (lit "https://hoge.com/?a=1&b=2"))
      (VStr (lit "JPY")) (VStr (lit "1")) (sampleBid "2b84475b5b636e").
Proof.
  apply (query_string_reads_back bidderRequestWithEnvelope
           (VStr (lit "https://hoge.com/?a=1&b=2")) (VStr (lit "JPY")) (VStr (lit "1"))
           (sampleBid "2b84475b5b636e")).
  vm_compute. reflexivity.
Defined.

(** The [usr] field is in every query string, last: with the text
    [%5Bobject%20Object%5D] as its value when the bidder request carries an
    envelope, and with an empty value when it carries none. *)
Theorem usr_field_always_emitted (bidderRequest url cur dnt request req : value) :
  PerRequest.buildRequest bidderRequest url cur dnt request = Ok req ->
  exists (data : jsstring) (before : list (jsstring * jsstring)),
    prop req "data" = VStr data /\
    readFields data None [] =
    before ++ [(lit "usr",
                if hasEnvelope bidderRequest then lit "%5Bobject%20Object%5D" else [])].
Proof.
  intros H. apply buildRequest_data in H. subst req.
  eexists. eexists. split; [reflexivity |].
  rewrite (readFields_fieldTexts _ (queryFields_delimiterFree _ _ _ _ _)).
  unfold queryFields. rewrite !app_assoc. f_equal.
  unfold hasEnvelope, eidsOf, PerRequest.setUserId.
  destruct (truthy bidderRequest && truthy (prop bidderRequest "userId")); [| reflexivity].
  cbn [andb]. destruct (isStr (deepAccess bidderRequest ["userId"; "idl_env"])); reflexivity.
Qed.

Lemma usr_field_always_emitted_witness :
  exists (data : jsstring) (before : list (jsstring * jsstring)),
    prop (VObj [("method", VStr (lit "GET"));
                ("url", VStr PerRequest.ENDPOINT);
                ("data", VStr (lit "bid=2b84475b5b636e&ver=%24prebid.version%24&sid=123456&cur=JPY&dnt=0&usr=&"))])
         "data" = VStr data /\
    readFields data None [] =
    before ++ [(lit "usr",
                if hasEnvelope sampleBidderRequest then lit "%5Bobject%20Object%5D" else [])].
Proof.
  apply (usr_field_always_emitted sampleBidderRequest VUndefined (VStr (lit "JPY"))
           (VStr (lit "0"))
           (VObj [("bidId", VStr (lit "2b84475b5b636e"));
                  ("params", VObj [("sid", VStr (lit "123456"))])])).
  vm_compute. reflexivity.
Defined.

(** *** Requests that cannot be built *)

Lemma requestEntry_throws_TypeError (request : value) (e : error) :
  Aggregate.requestEntry request = Throw e -> e = TypeError.
Proof.
  unfold Aggregate.requestEntry. rewrite !get_cases.
  destruct (nullish request); cbn [rbind]; intros H; congruence.
Qed.

Lemma rmap_throws {A B : Type} (f : A -> result B) (E : error) (l : list A) :
  (forall x e, In x l -> f x = Throw e -> e = E) ->
  forall e, rmap f l = Throw e -> e = E.
Proof.
  induction l as [| x l IH]; intros Hall e H; [discriminate H |].
  cbn [rmap] in H. destruct (f x) as [y | e'] eqn:Hx.
  - destruct (rmap f l) as [ys | e''] eqn:Hl; [discriminate H |].
    injection H as <-. apply IH; [| reflexivity].
    intros x' e0 Hin. apply Hall. right. exact Hin.
  - injection H as <-. apply (Hall x e'); [left; reflexivity | exact Hx].
Qed.

Lemma rmap_throws_at {A B : Type} (f : A -> result B) (E : error) (l : list A) (bad : A) :
  (forall x e, In x l -> f x = Throw e -> e = E) ->
  In bad l -> f bad = Throw E -> rmap f l = Throw E.
Proof.
  intros Hall Hin Hbad.
  destruct (rmap f l) as [ys | e] eqn:Hl.
  - exfalso. revert ys Hl. induction l as [| x l IH]; [contradiction |].
    intros ys Hl. cbn [rmap] in Hl.
    destruct (f x) as [y |] eqn:Hx; [| discriminate Hl].
    destruct (rmap f l) as [ys' |] eqn:Hl'; [| discriminate Hl].
    destruct Hin as [-> | Hin]; [congruence |].
    apply (IH (fun x' e0 H' => Hall x' e0 (or_intror H')) Hin ys' eq_refl).
  - rewrite (rmap_throws f E l Hall e Hl). reflexivity.
Qed.

(** Without referer information [buildRequests] throws a [TypeError] in
    both variants, whatever the bids, also when there is no bid. *)
Theorem buildRequests_needs_refererInfo
    (env : platform) (validBidRequests : list value) (bidderRequest : value) :
  nullish bidderRequest = true \/ nullish (prop bidderRequest "refererInfo") = true ->
  PerRequest.buildRequests env validBidRequests bidderRequest = Throw TypeError /\
  Aggregate.buildRequests env validBidRequests bidderRequest = Throw TypeError.
Proof.
  intros H. split.
  - unfold PerRequest.buildRequests. rewrite !get_cases.
    destruct (nullish bidderRequest); [reflexivity |].
    destruct H as [H | H]; [discriminate H |]. cbn [rbind]. rewrite get_cases, H. reflexivity.
  - unfold Aggregate.buildRequests, Aggregate.requestPayload.
    destruct (rmap Aggregate.requestEntry validBidRequests) as [requests | e] eqn:Hr.
    + cbn [rbind]. rewrite get_cases.
      destruct (nullish bidderRequest); [reflexivity |].
      destruct H as [H | H]; [discriminate H |]. cbn [rbind].
      unfold Aggregate.getUrlInfo. rewrite get_cases, H. reflexivity.
    + cbn [rbind].
      rewrite (rmap_throws Aggregate.requestEntry TypeError validBidRequests
                 (fun x e0 _ Hx => requestEntry_throws_TypeError x e0 Hx) e Hr).
      reflexivity.
Qed.

Lemma buildRequests_needs_refererInfo_witness :
  PerRequest.buildRequests samplePage [sampleBid "2b84475b5b636e"] (VObj []) = Throw TypeError /\
  Aggregate.buildRequests samplePage [sampleBid "2b84475b5b636e"] (VObj []) = Throw TypeError.
Proof.
  apply (buildRequests_needs_refererInfo samplePage [sampleBid "2b84475b5b636e"] (VObj [])).
  right. reflexivity.
Defined.

(** [encodeURIComponent] throws a [URIError] on a string that is not well
    formed, and nothing else. *)
Lemma Encode_not_wellFormed (n : nat) :
  forall s : jsstring,
    (List.length s <= n)%nat ->
    isWellFormed s = false ->
    Encode uri_unescaped s = Throw URIError.
Proof.
  induction n as [| n IH]; intros s Hlen Hwf.
  - destruct s; [discriminate Hwf | simpl in Hlen; lia].
  - destruct s as [| c rest]; [discriminate Hwf |].
    simpl in Hlen. cbn [Encode]. cbn [isWellFormed] in Hwf.
    destruct (uri_unescaped c) eqn:Hu.
    + destruct (uri_unescaped_not_surrogate c Hu) as [Hlo Hhi].
      rewrite Hlo, Hhi in Hwf. rewrite (IH rest ltac:(lia) Hwf). reflexivity.
    + destruct (is_low_surrogate c); [reflexivity |].
      destruct (is_high_surrogate c).
      * destruct rest as [| d rest']; [reflexivity |].
        destruct (is_low_surrogate d); [| reflexivity].
        cbn [andb] in Hwf. simpl in Hlen.
        rewrite (IH rest' ltac:(lia) Hwf). reflexivity.
      * rewrite (IH rest ltac:(lia) Hwf). reflexivity.
Qed.

Lemma tryAppendQueryString_throws (q : jsstring) (key : string) (v : value) (e : error) :
  tryAppendQueryString q key v = Throw e -> e = URIError.
Proof.
  unfold tryAppendQueryString, encodeURIComponent.
  destruct (truthy v); [| discriminate].
  destruct (isWellFormed (ToString v)) eqn:Hwf.
  - destruct (Encode_wellFormed _ (ToString v) (le_n _) Hwf) as [enc He].
    rewrite He. discriminate.
  - rewrite (Encode_not_wellFormed _ (ToString v) (le_n _) Hwf). cbn [rbind]. congruence.
Qed.

Lemma buildRequest_throws_URIError (bidderRequest url cur dnt request : value) (e : error) :
  nullish request = false ->
  PerRequest.buildRequest bidderRequest url cur dnt request = Throw e -> e = URIError.
Proof.
  intros Hn. unfold PerRequest.buildRequest.
  rewrite !(get_not_nullish request _ Hn). cbn [rbind].
  repeat
    match goal with
    | |- context [tryAppendQueryString ?q ?k ?v] =>
        let q' := fresh "q" in
        let Hq := fresh "Hq" in
        destruct (tryAppendQueryString q k v) as [q' | e'] eqn:Hq;
        [cbn [rbind]
        | cbn [rbind]; apply tryAppendQueryString_throws in Hq; intros H; congruence]
    end.
  discriminate.
Qed.

Lemma buildRequest_malformed_sid (bidderRequest url cur dnt request : value) :
  PerRequest.isBidRequestValid request = Ok true ->
  encodable (prop (prop request "params") "sid") = false ->
  PerRequest.buildRequest bidderRequest url cur dnt request = Throw URIError.
Proof.
  intros Hvalid Hsid.
  destruct (valid_bid_inv request Hvalid) as [Hn [ps [Hps Htruthy]]].
  destruct (PerRequest.buildRequest bidderRequest url cur dnt request) as [req | e] eqn:Hb.
  - exfalso. revert Hb. unfold PerRequest.buildRequest.
    rewrite !(get_not_nullish request _ Hn). cbn [rbind].
    do 3 (match goal with
          | |- context [tryAppendQueryString ?q ?k ?v] =>
              let q' := fresh "q" in
              destruct (tryAppendQueryString q k v) as [q' |]; [| discriminate]; cbn [rbind]
          end).
    assert (Hthrow : forall s, tryAppendQueryString s "sid"
                                 (getBidIdParameter "sid" (prop request "params")) = Throw URIError).
    { intros s. unfold getBidIdParameter. rewrite Hps in *. rewrite Htruthy. cbn [truthy andb].
      unfold tryAppendQueryString, encodeURIComponent. rewrite Htruthy.
      rewrite (Encode_not_wellFormed _ _ (le_n _) Hsid). reflexivity. }
    rewrite Hthrow. discriminate.
  - rewrite (buildRequest_throws_URIError _ _ _ _ _ e Hn Hb). reflexivity.
Qed.

(** A site id that is not a well-formed string (it holds a surrogate
    without its partner) makes the per-request [buildRequests] throw a
    [URIError] for the whole list of bids; the aggregate [buildRequests]
    returns its request for the same bids. *)
Theorem malformed_sid_stops_per_request_only
    (env : platform) (validBidRequests : list value) (bidderRequest refererInfo bad : value) :
  Forall (fun bid => PerRequest.isBidRequestValid bid = Ok true) validBidRequests ->
  get bidderRequest "refererInfo" = Ok refererInfo ->
  nullish refererInfo = false ->
  In bad validBidRequests ->
  encodable (prop (prop bad "params") "sid") = false ->
  PerRequest.buildRequests env validBidRequests bidderRequest = Throw URIError /\
  exists request, Aggregate.buildRequests env validBidRequests bidderRequest = Ok [request].
Proof.
  intros Hvalid Href Hrn Hin Hbad. rewrite Forall_forall in Hvalid. split.
  - unfold PerRequest.buildRequests. rewrite Href. cbn [rbind].
    rewrite (get_not_nullish refererInfo "referer" Hrn). cbn [rbind].
    apply (rmap_throws_at _ URIError validBidRequests bad).
    + intros x e Hx He. destruct (valid_bid_inv x (Hvalid x Hx)) as [Hn _].
      exact (buildRequest_throws_URIError _ _ _ _ _ e Hn He).
    + exact Hin.
    + apply buildRequest_malformed_sid; [exact (Hvalid bad Hin) | exact Hbad].
  - unfold Aggregate.buildRequests, Aggregate.requestPayload.
    rewrite (rmap_ok Aggregate.requestEntry requestOf).
    + cbn [rbind]. rewrite Href. cbn [rbind].
      unfold Aggregate.getUrlInfo. rewrite !(get_not_nullish refererInfo _ Hrn).
      cbn [rbind]. eexists. reflexivity.
    + apply Forall_forall. intros bid Hb. apply requestEntry_valid, Hvalid, Hb.
Qed.

Lemma malformed_sid_stops_per_request_only_witness :
  PerRequest.buildRequests samplePage [sampleBid "2b84475b5b636e"; bidWithMalformedSid]
    sampleBidderRequest = Throw URIError /\
  exists request,
    Aggregate.buildRequests samplePage [sampleBid "2b84475b5b636e"; bidWithMalformedSid]
      sampleBidderRequest = Ok [request].
Proof.
  apply (malformed_sid_stops_per_request_only samplePage
           [sampleBid "2b84475b5b636e"; bidWithMalformedSid] sampleBidderRequest
           (prop sampleBidderRequest "refererInfo") bidWithMalformedSid).
  - repeat constructor.
  - reflexivity.
  - reflexivity.
  - right. left. reflexivity.
  - reflexivity.
Defined.

(** *** User syncs that cannot be read *)

Lemma per_request_userSyncsOf_throws (syncOptions res : value) (e : error) :
  PerRequest.userSyncsOf syncOptions res = Throw e -> e = TypeError.
Proof.
  unfold PerRequest.userSyncsOf. rewrite ?get_cases.
  destruct (nullish syncOptions); cbn [rbind]; [congruence |].
  destruct (truthy (prop syncOptions "pixelEnabled")); [| discriminate].
  rewrite ?get_cases. destruct (nullish res); cbn [rbind]; [congruence |].
  destruct (truthy (prop res "body")); [| discriminate].
  rewrite ?get_cases. destruct (nullish (prop res "body")); cbn [rbind]; [congruence |].
  rewrite ?get_cases. destruct (nullish (prop (prop res "body") "syncs")); cbn [rbind];
    [congruence |].
  destruct (truthy (prop (prop (prop res "body") "syncs") "length")); [| discriminate].
  destruct (prop (prop res "body") "syncs"); cbn [forEach rbind]; congruence.
Qed.

Lemma aggregate_userSyncsOf_throws (syncOptions res : value) (e : error) :
  Aggregate.userSyncsOf syncOptions res = Throw e -> e = TypeError.
Proof.
  unfold Aggregate.userSyncsOf. rewrite ?get_cases.
  destruct (nullish syncOptions); cbn [rbind]; [congruence |].
  destruct (truthy (prop syncOptions "pixelEnabled")); [| discriminate].
  rewrite ?get_cases. destruct (nullish res); cbn [rbind]; [congruence |].
  destruct (truthy (prop res "body")); [| discriminate].
  rewrite ?get_cases. destruct (nullish (prop res "body")); cbn [rbind]; [congruence |].
  rewrite ?get_cases. destruct (nullish (prop (prop res "body") "syncs")); cbn [rbind];
    [congruence |].
  destruct (truthy (prop (prop (prop res "body") "syncs") "length")); discriminate.
Qed.

Lemma truthy_not_nullish (v : value) : truthy v = true -> nullish v = false.
Proof.
  destruct v; try reflexivity; discriminate.
Qed.

Lemma prop_truthy_not_nullish (v : value) (k : string) :
  truthy (prop v k) = true -> nullish v = false.
Proof.
  destruct v; try reflexivity; discriminate.
Qed.

(** With pixel syncing enabled, one response that has a body and no sync
    list makes [getUserSyncs] throw a [TypeError], in both variants: the
    sync URLs of the other responses are not returned. *)
Theorem getUserSyncs_missing_list_discards_all
    (syncOptions : value) (serverResponses : list value) (bad : value) :
  truthy (prop syncOptions "pixelEnabled") = true ->
  In bad serverResponses ->
  truthy (prop bad "body") = true ->
  nullish (prop (prop bad "body") "syncs") = true ->
  PerRequest.getUserSyncs syncOptions serverResponses = Throw TypeError /\
  Aggregate.getUserSyncs syncOptions serverResponses = Throw TypeError.
Proof.
  intros Hpe Hin Hbody Hsyncs.
  pose proof (prop_truthy_not_nullish _ _ Hpe) as Hso.
  pose proof (prop_truthy_not_nullish _ _ Hbody) as Hbad.
  pose proof (truthy_not_nullish _ Hbody) as Hbn.
  unfold PerRequest.getUserSyncs, Aggregate.getUserSyncs.
  destruct serverResponses as [| r l] eqn:Hl; [contradiction |]. rewrite <- Hl in *.
  split.
  - rewrite (rmap_throws_at (PerRequest.userSyncsOf syncOptions) TypeError serverResponses bad).
    + reflexivity.
    + intros x e _ Hx. exact (per_request_userSyncsOf_throws _ _ _ Hx).
    + exact Hin.
    + unfold PerRequest.userSyncsOf.
      rewrite (get_not_nullish _ _ Hso). cbn [rbind]. rewrite Hpe.
      rewrite (get_not_nullish _ _ Hbad). cbn [rbind]. rewrite Hbody.
      rewrite (get_not_nullish _ _ Hbn). cbn [rbind]. rewrite get_cases, Hsyncs. reflexivity.
  - rewrite (rmap_throws_at (Aggregate.userSyncsOf syncOptions) TypeError serverResponses bad).
    + reflexivity.
    + intros x e _ Hx. exact (aggregate_userSyncsOf_throws _ _ _ Hx).
    + exact Hin.
    + unfold Aggregate.userSyncsOf.
      rewrite (get_not_nullish _ _ Hso). cbn [rbind]. rewrite Hpe.
      rewrite (get_not_nullish _ _ Hbad). cbn [rbind]. rewrite Hbody.
      rewrite (get_not_nullish _ _ Hbn). cbn [rbind]. rewrite get_cases, Hsyncs. reflexivity.
Qed.

Lemma getUserSyncs_missing_list_discards_all_witness :
  PerRequest.getUserSyncs pixelSyncOn
    [responseWithSyncs ["https://s1"]; responseWithoutSyncs; responseWithSyncs ["https://s2"]]
    = Throw TypeError /\
  Aggregate.getUserSyncs pixelSyncOn
    [responseWithSyncs ["https://s1"]; responseWithoutSyncs; responseWithSyncs ["https://s2"]]
    = Throw TypeError.
Proof.
  apply (getUserSyncs_missing_list_discards_all pixelSyncOn
           [responseWithSyncs ["https://s1"]; responseWithoutSyncs;
            responseWithSyncs ["https://s2"]] responseWithoutSyncs).
  - reflexivity.
  - right. left. reflexivity.
  - reflexivity.
  - reflexivity.
Defined.

(** *** Native bundles *)

Lemma prop_update_same (k : string) (v : value) (ps : list (string * value)) :
  prop (VObj (update k v ps)) k = v.
Proof.
  cbn [prop]. rewrite lookup_update_same. reflexivity.
Qed.

Lemma prop_update_other (k k' : string) (v : value) (ps : list (string * value)) :
  String.eqb k' k = false -> prop (VObj (update k v ps)) k' = prop (VObj ps) k'.
Proof.
  intros H. cbn [prop]. rewrite (lookup_update_other k k' v ps H). reflexivity.
Qed.

(** When every asset can be read and the native object has a link,
    [getNativeAd] returns the bundle of the assets with four properties set
    on top of it: the click-through URL is the [url] of the link, and the
    impression trackers, the privacy link and the privacy icon are those of
    the native object, or the empty list and the empty string when it has
    none. Every other property of the bundle comes from the assets. *)
Theorem getNativeAd_link_and_defaults
    (resNative : value) (assets : list value) (native : list (string * value)) :
  prop resNative "assets" = VArr assets ->
  assets <> [] ->
  rfold PerRequest.nativeAsset assets [] = Ok native ->
  nullish (prop resNative "link") = false ->
  exists bundle : value,
    PerRequest.getNativeAd resNative = Ok bundle /\
    prop bundle "clickUrl" = prop (prop resNative "link") "url" /\
    prop bundle "impressionTrackers" = or_else (prop resNative "imptrackers") (VArr []) /\
    prop bundle "privacyLink" = or_else (prop resNative "privacy") (VStr []) /\
    prop bundle "privacyIcon" = or_else (prop resNative "privacyIcon") (VStr []) /\
    forall k,
      k <> "clickUrl" -> k <> "impressionTrackers" -> k <> "privacyLink" ->
      k <> "privacyIcon" ->
      prop bundle k = prop (VObj native) k.
Proof.
  intros Hassets Hne Hfold Hlink.
  assert (Hn : nullish resNative = false).
  { destruct resNative; try reflexivity; discriminate Hassets. }
  unfold PerRequest.getNativeAd.
  rewrite !(get_not_nullish resNative _ Hn), Hassets. cbn [rbind get prop forEach].
  destruct assets as [| a assets']; [contradiction |].
  cbn [String.eqb Ascii.eqb Bool.eqb List.length truthy].
  replace (negb (negb (Z.of_nat (S (List.length assets')) =? 0))) with false
    by (symmetry; apply negb_false_iff, negb_true_iff, Z.eqb_neq; lia).
  rewrite Hfold. cbn [rbind]. rewrite (get_not_nullish _ "url" Hlink). cbn [rbind].
  eexists. split; [reflexivity |].
  split; [rewrite !prop_update_other by reflexivity; apply prop_update_same |].
  split; [rewrite !prop_update_other by reflexivity; apply prop_update_same |].
  split; [rewrite !prop_update_other by reflexivity; apply prop_update_same |].
  split; [apply prop_update_same |].
  intros k H1 H2 H3 H4.
  apply String.eqb_neq in H1, H2, H3, H4.
  rewrite !prop_update_other by assumption. reflexivity.
Qed.

Lemma getNativeAd_link_and_defaults_witness :
  exists bundle : value,
    PerRequest.getNativeAd linkedNative = Ok bundle /\
    prop bundle "clickUrl" = prop (prop linkedNative "link") "url" /\
    prop bundle "impressionTrackers" = or_else (prop linkedNative "imptrackers") (VArr []) /\
    prop bundle "privacyLink" = or_else (prop linkedNative "privacy") (VStr []) /\
    prop bundle "privacyIcon" = or_else (prop linkedNative "privacyIcon") (VStr []) /\
    forall k,
      k <> "clickUrl" -> k <> "impressionTrackers" -> k <> "privacyLink" ->
      k <> "privacyIcon" ->
      prop bundle k = prop (VObj [("title", VStr (lit "T")); ("body", VStr (lit "B"))]) k.
Proof.
  apply (getNativeAd_link_and_defaults linkedNative
           [VObj [("id", VNum 0); ("title", VObj [("text", VStr (lit "T"))])];
            VObj [("id", VNum 1); ("data", VObj [("value", VStr (lit "B"))])]]
           [("title", VStr (lit "T")); ("body", VStr (lit "B"))]).
  - reflexivity.
  - discriminate.
  - reflexivity.
  - reflexivity.
Defined.

Lemma nativeAsset_unreadable (native : list (string * value)) (asset : value) :
  unreadableAsset asset = true -> PerRequest.nativeAsset native asset = Throw TypeError.
Proof.
  unfold unreadableAsset, PerRequest.nativeAsset. intros H. rewrite get_cases.
  destruct (nullish asset) eqn:Hn; [reflexivity |]. cbn [orb rbind] in *.
  revert H. destruct (prop asset "id") as [| | b | z | s | l | ps]; intros H;
    cbn [strict_eq_num andb orb] in *; try discriminate H.
  destruct (Z.eqb_spec z 0) as [E | H0].
  { subst z. cbn [Z.eqb Pos.eqb andb orb] in H. rewrite ?orb_false_r in H.
    rewrite (get_not_nullish asset _ Hn). cbn [rbind]. rewrite get_cases, H. reflexivity. }
  destruct (Z.eqb_spec z 1) as [E | H1].
  { subst z. cbn [Z.eqb Pos.eqb andb orb] in H. rewrite ?orb_false_r in H.
    rewrite (get_not_nullish asset _ Hn). cbn [rbind]. rewrite get_cases, H. reflexivity. }
  destruct (Z.eqb_spec z 2) as [E | H2].
  { subst z. cbn [Z.eqb Pos.eqb andb orb] in H. rewrite ?orb_false_r in H.
    rewrite (get_not_nullish asset _ Hn). cbn [rbind]. rewrite get_cases, H. reflexivity. }
  destruct (Z.eqb_spec z 3) as [E | H3].
  { subst z. cbn [Z.eqb Pos.eqb andb orb] in H. rewrite ?orb_false_r in H.
    rewrite (get_not_nullish asset _ Hn). cbn [rbind]. rewrite get_cases, H. reflexivity. }
  destruct (Z.eqb_spec z 4) as [E | H4].
  { subst z. cbn [Z.eqb Pos.eqb andb orb] in H. rewrite ?orb_false_r in H.
    rewrite (get_not_nullish asset _ Hn). cbn [rbind]. rewrite get_cases, H. reflexivity. }
  discriminate H.
Qed.

Lemma rfold_nativeAsset_unreadable (assets : list value) (asset : value) :
  In asset assets -> unreadableAsset asset = true ->
  forall native, rfold PerRequest.nativeAsset assets native = Throw TypeError.
Proof.
  intros Hin Hbad. induction assets as [| a assets IH]; [contradiction |].
  intros native. cbn [rfold].
  destruct (PerRequest.nativeAsset native a) as [native' | e] eqn:Ha.
  - destruct Hin as [-> | Hin].
    + rewrite (nativeAsset_unreadable native asset Hbad) in Ha. discriminate Ha.
    + apply IH. exact Hin.
  - rewrite (nativeAsset_throws_TypeError native a e Ha). reflexivity.
Qed.

(** The native path has no handler: one asset that cannot be read makes
    [interpretResponse] throw a [TypeError], with nothing logged and no bid
    returned, whatever the other assets and the link are. *)
Theorem unreadable_native_asset_throws
    (w : world) (props : list (string * value)) (assets : list value) (asset : value) :
  has_body w props ->
  PerRequest.isNative (VObj props) = Ok true ->
  prop (prop (VObj props) "native") "assets" = VArr assets ->
  In asset assets ->
  unreadableAsset asset = true ->
  PerRequest.interpretResponse w = (Throw TypeError, w).
Proof.
  intros Hw Hnat Hassets Hin Hbad.
  rewrite per_request_interpretResponse_outcome. unfold perRequestOutcome.
  rewrite (has_body_get w props Hw).
  assert (He : isEmpty (VObj props) = false).
  { destruct props; [discriminate Hnat | reflexivity]. }
  rewrite He, Hnat.
  assert (Hn : nullish (prop (VObj props) "native") = false).
  { destruct (prop (VObj props) "native"); try reflexivity; discriminate Hassets. }
  unfold PerRequest.getNativeAd.
  rewrite !(get_not_nullish _ _ Hn), Hassets. cbn [rbind get prop forEach].
  destruct assets as [| a assets']; [contradiction |].
  cbn [String.eqb Ascii.eqb Bool.eqb List.length truthy].
  replace (negb (negb (Z.of_nat (S (List.length assets')) =? 0))) with false
    by (symmetry; apply negb_false_iff, negb_true_iff, Z.eqb_neq; lia).
  rewrite (rfold_nativeAsset_unreadable (a :: assets') asset Hin Hbad []). reflexivity.
Qed.

Lemma unreadable_native_asset_throws_witness :
  PerRequest.interpretResponse (nativeWorld nativeWithoutImg) =
  (Throw TypeError, nativeWorld nativeWithoutImg).
Proof.
  apply (unreadable_native_asset_throws (nativeWorld nativeWithoutImg)
           [("bid", VStr (lit "2b84475b5b636e")); ("price", VNum 20);
            ("native", nativeWithoutImg)]
           [VObj [("id", VNum 0); ("title", VObj [("text", VStr (lit "T"))])];
            VObj [("id", VNum 3)]]
           (VObj [("id", VNum 3)])).
  - eexists. split; reflexivity.
  - reflexivity.
  - reflexivity.
  - right. left. reflexivity.
  - reflexivity.
Defined.

(** *** The canonical link *)

Lemma scanMetaElements_truthy (metaElements : list (option jsstring * jsstring)) (c : value) :
  truthy c = true -> Aggregate.scanMetaElements metaElements c = c.
Proof.
  intros H. destruct metaElements as [| [p content] r]; cbn [Aggregate.scanMetaElements].
  - reflexivity.
  - rewrite H. reflexivity.
Qed.

Lemma scanMetaElements_none (metaElements : list (option jsstring * jsstring)) :
  Forall (fun m => isOgUrl m = false) metaElements ->
  forall c, Aggregate.scanMetaElements metaElements c = c.
Proof.
  induction 1 as [| [p content] r Hm _ IH]; intros c; cbn [Aggregate.scanMetaElements].
  - reflexivity.
  - destruct (truthy c); [reflexivity |]. unfold isOgUrl in Hm. cbn [fst] in Hm.
    destruct p as [p |]; [rewrite Hm |]; apply IH.
Qed.

Lemma scanMetaElements_first
    (pre : list (option jsstring * jsstring)) (m : option jsstring * jsstring)
    (post : list (option jsstring * jsstring)) :
  Forall (fun m' => isOgUrl m' = false \/ snd m' = []) pre ->
  isOgUrl m = true ->
  snd m <> [] ->
  forall c, truthy c = false ->
    Aggregate.scanMetaElements (pre ++ m :: post) c = VStr (snd m).
Proof.
  intros Hpre Hm Hcontent.
  induction Hpre as [| [p content] pre Hp _ IH]; intros c Hc.
  - destruct m as [p content]. cbn [app Aggregate.scanMetaElements]. rewrite Hc.
    unfold isOgUrl in Hm. cbn [fst snd] in *. destruct p as [p |]; [| discriminate Hm].
    rewrite Hm. apply scanMetaElements_truthy.
    destruct content; [contradiction | reflexivity].
  - cbn [app Aggregate.scanMetaElements]. rewrite Hc.
    destruct Hp as [Hp | Hp].
    + unfold isOgUrl in Hp. cbn [fst] in Hp.
      destruct p as [p |]; [rewrite Hp |]; apply IH; exact Hc.
    + cbn [snd] in Hp. subst content.
      destruct p as [p |]; [| apply IH; exact Hc].
      destruct (Aggregate.jsstring_eqb p (lit "og:url")); apply IH; [reflexivity | exact Hc].
Qed.

(** [getUrlInfo] on a referer object. The canonical link is the one the
    orchestrator supplies when that is truthy; else the content of the
    first [og:url] element of the document that has any content; else, with
    no [og:url] element, what the orchestrator supplied. The URL is the
    topmost location, and the referrer is the one of the referer object,
    or the document's when that one is falsy. *)
Theorem getUrlInfo_canonical_link (env : platform) (refererInfo : value) :
  nullish refererInfo = false ->
  exists info : value,
    Aggregate.getUrlInfo env refererInfo = Ok info /\
    prop info "url" = prop refererInfo "topmostLocation" /\
    prop info "ref" = or_else (prop refererInfo "ref") (VStr (documentReferrer env)) /\
    (truthy (prop refererInfo "canonicalUrl") = true ->
     prop info "canonical_link" = prop refererInfo "canonicalUrl") /\
    (truthy (prop refererInfo "canonicalUrl") = false ->
     forall pre m post,
       metas env = pre ++ m :: post ->
       Forall (fun m' => isOgUrl m' = false \/ snd m' = []) pre ->
       isOgUrl m = true ->
       snd m <> [] ->
       prop info "canonical_link" = VStr (snd m)) /\
    (truthy (prop refererInfo "canonicalUrl") = false ->
     Forall (fun m => isOgUrl m = false) (metas env) ->
     prop info "canonical_link" = prop refererInfo "canonicalUrl").
Proof.
  intros Hn. unfold Aggregate.getUrlInfo.
  rewrite !(get_not_nullish refererInfo _ Hn). cbn [rbind].
  eexists. split; [reflexivity |].
  split; [reflexivity |]. split; [reflexivity |].
  cbn [prop lookup String.eqb Ascii.eqb Bool.eqb].
  change (Aggregate.getMetaElements env) with (metas env).
  split; [| split].
  - intros Ht. rewrite Ht. reflexivity.
  - intros Hf pre m post Hmetas Hpre Hm Hcontent. rewrite Hf. cbn [negb].
    rewrite Hmetas. apply scanMetaElements_first; assumption.
  - intros Hf Hnone. rewrite Hf. cbn [negb]. apply scanMetaElements_none. exact Hnone.
Qed.

Lemma getUrlInfo_canonical_link_witness :
  exists info : value,
    Aggregate.getUrlInfo pageWithMetas (VObj [("topmostLocation", VStr (lit "https://hoge.com"))])
      = Ok info /\
    prop info "canonical_link" = VStr (lit "https://hoge.com/canonical") /\
    prop info "ref" = VStr (lit "https://ref.example").
Proof.
  destruct (getUrlInfo_canonical_link pageWithMetas
              (VObj [("topmostLocation", VStr (lit "https://hoge.com"))]) eq_refl)
    as [info [Hrun [_ [Href [_ [Hfirst _]]]]]].
  exists info. split; [exact Hrun |]. split; [| exact Href].
  apply (Hfirst eq_refl
           [(Some (lit "og:title"), lit "Hoge"); (Some (lit "og:url"), [])]
           (Some (lit "og:url"), lit "https://hoge.com/canonical")
           [(Some (lit "og:url"), lit "https://hoge.com/other")]).
  - reflexivity.
  - constructor; [left; reflexivity |]. constructor; [right; reflexivity | constructor].
  - reflexivity.
  - discriminate.
Defined.

(** *** One request per bid *)

Lemma emittedField_present (key : string) (v : value) :
  truthy v = true ->
  encodable v = true ->
  exists e, encodeURIComponent v = Ok e /\ emittedField key v = [(lit key, e)].
Proof.
  intros Ht Henc. unfold emittedField, encodeURIComponent. rewrite Ht.
  destruct (Encode_wellFormed _ (ToString v) (le_n _) Henc) as [e He].
  rewrite He. exists e. split; reflexivity.
Qed.

(** The request of one admitted bid: a GET request to the endpoint whose
    query string is the text of the fields of that bid, with the site id of
    the bid among them, and its bid id when it has one. *)
Lemma buildRequest_of_bid (bidderRequest url cur dnt bid : value) :
  PerRequest.isBidRequestValid bid = Ok true ->
  encodableBid bid = true ->
  encodable url = true -> encodable cur = true -> encodable dnt = true ->
  PerRequest.buildRequest bidderRequest url cur dnt bid =
    Ok (VObj [("method", VStr (lit "GET"));
              ("url", VStr PerRequest.ENDPOINT);
              ("data", VStr (List.concat (map fieldText
                                            (queryFields bidderRequest url cur dnt bid))))]) /\
  readFields (List.concat (map fieldText (queryFields bidderRequest url cur dnt bid))) None [] =
    queryFields bidderRequest url cur dnt bid /\
  (exists sid, encodeURIComponent (prop (prop bid "params") "sid") = Ok sid /\
               In (lit "sid", sid) (queryFields bidderRequest url cur dnt bid)) /\
  (truthy (prop bid "bidId") = true ->
   exists id, encodeURIComponent (prop bid "bidId") = Ok id /\
              In (lit "bid", id) (queryFields bidderRequest url cur dnt bid)).
Proof.
  intros Hvalid Henc Hurl Hcur Hdnt.
  destruct (valid_bid_inv bid Hvalid) as [Hn [ps [Hps Hsid]]].
  destruct (buildRequest_ok bidderRequest url cur dnt bid Hn Henc Hurl Hcur Hdnt)
    as [data Hdata].
  pose proof (buildRequest_data _ _ _ _ _ _ Hdata) as Hreq.
  split; [rewrite Hdata, Hreq; reflexivity |].
  split; [apply readFields_fieldTexts, queryFields_delimiterFree |].
  unfold encodableBid in Henc.
  apply andb_prop in Henc. destruct Henc as [Henc _].
  apply andb_prop in Henc. destruct Henc as [Henc Hsidenc].
  apply andb_prop in Henc. destruct Henc as [_ Hbidenc].
  split.
  - rewrite Hps in Hsidenc |- *.
    destruct (emittedField_present "sid" (prop (VObj ps) "sid") Hsid Hsidenc) as [e [He Hf]].
    exists e. split; [exact He |].
    unfold queryFields. rewrite Hps. unfold getBidIdParameter at 1.
    rewrite Hsid. cbn [truthy andb]. rewrite Hf.
    apply in_or_app. right. apply in_or_app. right. apply in_or_app. right.
    apply in_or_app. left. left. reflexivity.
  - intros Hbid.
    destruct (emittedField_present "bid" (prop bid "bidId") Hbid Hbidenc) as [e [He Hf]].
    exists e. split; [exact He |].
    unfold queryFields. rewrite Hf.
    apply in_or_app. right. apply in_or_app. left. left. reflexivity.
Qed.

(** C8, as amended. For the bids the adapter admits and a bidder request
    that carries referer information, [buildRequests] of the aggregate
    variant returns a single POST request whose body is the JSON text of an
    object that lists one [{bid, sid}] entry per bid, in the order of the
    bids. When moreover the values that go into the query string are
    well-formed strings, [buildRequests] of the per-request variant returns
    one GET request per bid, in the order of the bids, and the request of a
    bid is the request to the endpoint whose query string is the text of
    the fields of that bid: it reads back as those fields, it carries the
    site id of the bid, and its bid id when it has one. *)
Theorem buildRequests_one_request_per_bid
    (env : platform) (validBidRequests : list value) (bidderRequest refererInfo : value) :
  Forall (fun bid => PerRequest.isBidRequestValid bid = Ok true) validBidRequests ->
  get bidderRequest "refererInfo" = Ok refererInfo ->
  nullish refererInfo = false ->
  (forallb encodableBid validBidRequests = true ->
   encodable (prop refererInfo "referer") = true ->
   encodable (adServerCurrency env) = true ->
   exists requests : list value,
     PerRequest.buildRequests env validBidRequests bidderRequest = Ok requests /\
     List.length requests = List.length validBidRequests /\
     Forall2
       (fun bid request =>
          exists data : jsstring,
            request = VObj [("method", VStr (lit "GET"));
                            ("url", VStr PerRequest.ENDPOINT);
                            ("data", VStr data)] /\
            readFields data None [] =
              queryFields bidderRequest (prop refererInfo "referer")
                (PerRequest.getCurrencyType env)
                (VStr (lit (if getDNT env then "1" else "0"))) bid /\
            (exists sid,
               encodeURIComponent (prop (prop bid "params") "sid") = Ok sid /\
               In (lit "sid", sid) (readFields data None [])) /\
            (truthy (prop bid "bidId") = true ->
             exists id,
               encodeURIComponent (prop bid "bidId") = Ok id /\
               In (lit "bid", id) (readFields data None [])))
       validBidRequests requests) /\
  (exists payload : value,
     Aggregate.buildRequests env validBidRequests bidderRequest =
       Ok [VObj [("method", VStr (lit "POST"));
                 ("url", VStr Aggregate.ENDPOINT);
                 ("data", JSON_stringify payload)]] /\
     prop payload "requests" = VArr (map requestOf validBidRequests)).
Proof.
  intros Hvalid Href Hrn.
  split.
  - intros Hbids Hurl Hcur.
    unfold PerRequest.buildRequests. rewrite Href. cbn [rbind].
    rewrite (get_not_nullish refererInfo "referer" Hrn). cbn [rbind].
    set (url := prop refererInfo "referer").
    set (cur := PerRequest.getCurrencyType env).
    set (dnt := VStr (lit (if getDNT env then "1" else "0"))).
    assert (Hc : encodable cur = true).
    { unfold cur, PerRequest.getCurrencyType.
      destruct (truthy (adServerCurrency env)); [exact Hcur | reflexivity]. }
    assert (Hd : encodable dnt = true).
    { unfold dnt. destruct (getDNT env); reflexivity. }
    rewrite forallb_forall in Hbids. rewrite Forall_forall in Hvalid.
    induction validBidRequests as [| bid bids IH].
    + exists []. repeat split; constructor.
    + destruct IH as [requests [Hrun [Hlen Hpair]]].
      { intros b Hb. apply Hvalid. right. exact Hb. }
      { intros b Hb. apply Hbids. right. exact Hb. }
      destruct (buildRequest_of_bid bidderRequest url cur dnt bid
                  (Hvalid bid (or_introl eq_refl)) (Hbids bid (or_introl eq_refl))
                  Hurl Hc Hd) as [Hreq [Hread [Hsid Hid]]].
      eexists. cbn [rmap]. rewrite Hreq, Hrun.
      split; [reflexivity |]. split; [simpl; rewrite Hlen; reflexivity |].
      constructor; [| exact Hpair].
      eexists. split; [reflexivity |]. rewrite Hread.
      split; [reflexivity |]. split; [exact Hsid | exact Hid].
  - unfold Aggregate.buildRequests, Aggregate.requestPayload.
    rewrite (rmap_ok Aggregate.requestEntry requestOf).
    + cbn [rbind]. rewrite Href. cbn [rbind].
      unfold Aggregate.getUrlInfo. rewrite !(get_not_nullish refererInfo _ Hrn).
      cbn [rbind]. eexists. split; [reflexivity | reflexivity].
    + eapply Forall_impl; [| exact Hvalid]. intros bid Hb. apply requestEntry_valid, Hb.
Qed.

Lemma buildRequests_one_request_per_bid_witness :
  (exists requests : list value,
     PerRequest.buildRequests samplePage [sampleBid "2b84475b5b636e"; sampleBid "3c95586c6c747f"]
       sampleBidderRequest = Ok requests /\
     List.length requests = 2%nat /\
     Forall2
       (fun bid request =>
          exists data : jsstring,
            request = VObj [("method", VStr (lit "GET"));
                            ("url", VStr PerRequest.ENDPOINT);
                            ("data", VStr data)] /\
            readFields data None [] =
              queryFields sampleBidderRequest
                (prop (prop sampleBidderRequest "refererInfo") "referer")
                (PerRequest.getCurrencyType samplePage)
                (VStr (lit (if getDNT samplePage then "1" else "0"))) bid /\
            (exists sid,
               encodeURIComponent (prop (prop bid "params") "sid") = Ok sid /\
               In (lit "sid", sid) (readFields data None [])) /\
            (truthy (prop bid "bidId") = true ->
             exists id,
               encodeURIComponent (prop bid "bidId") = Ok id /\
               In (lit "bid", id) (readFields data None [])))
       [sampleBid "2b84475b5b636e"; sampleBid "3c95586c6c747f"] requests) /\
  (exists payload : value,
     Aggregate.buildRequests samplePage [sampleBid "2b84475b5b636e"; sampleBid "3c95586c6c747f"]
       sampleBidderRequest =
       Ok [VObj [("method", VStr (lit "POST"));
                 ("url", VStr Aggregate.ENDPOINT);
                 ("data", JSON_stringify payload)]] /\
     prop payload "requests" =
       VArr (map requestOf [sampleBid "2b84475b5b636e"; sampleBid "3c95586c6c747f"])).
Proof.
  destruct (buildRequests_one_request_per_bid samplePage
              [sampleBid "2b84475b5b636e"; sampleBid "3c95586c6c747f"]
              sampleBidderRequest (prop sampleBidderRequest "refererInfo"))
    as [Hget Hpost].
  - repeat constructor.
  - reflexivity.
  - reflexivity.
  - split; [| exact Hpost].
    apply Hget; reflexivity.
Defined.

(** C8, as stated, fails. A bid with a truthy site id is admitted, and when
    that site id is not a well-formed string the per-request
    [buildRequests] throws a [URIError] and returns no request; and for a
    bidder request without referer information [buildRequests] throws a
    [TypeError] in both variants, for bids that are admitted. *)
Lemma buildRequests_admitted_bids_can_throw :
  PerRequest.isBidRequestValid bidWithMalformedSid = Ok true /\
  PerRequest.buildRequests samplePage [bidWithMalformedSid] sampleBidderRequest =
    Throw URIError /\
  PerRequest.isBidRequestValid (sampleBid "2b84475b5b636e") = Ok true /\
  PerRequest.buildRequests samplePage [sampleBid "2b84475b5b636e"] (VObj []) =
    Throw TypeError /\
  Aggregate.buildRequests samplePage [sampleBid "2b84475b5b636e"] (VObj []) =
    Throw TypeError.
Proof.
  repeat split; vm_compute; reflexivity.
Qed.
